(** * fit.py: the training driver of the ship-detection repository

    A shallow embedding of [src/fit.py].  The script is orchestration code:
    it parses the command line, looks a model object up in a registry, and
    calls into pandas, Keras and numpy.  The embedding keeps every call that
    leaves the script as an event answered by an environment, so that the
    theorems hold for every behaviour of the frameworks, and runs the
    script's own control flow (dictionary reads, branches, the [try]
    block, the retry loop) in a state-and-exception monad. *)

From Stdlib Require Import ZArith Ascii String List Floats Lia.
From stdpp Require Import gmap strings list.

Set Warnings "-inexact-float,-clear-no-such-hyp".

Local Open Scope string_scope.
Local Open Scope Z_scope.
Local Open Scope list_scope.
Local Open Scope stdpp_scope.

(** ** Python exceptions *)

(** The builtin exception classes that the script or its libraries raise,
    with the direct base class of each as Python defines it. *)
Inductive exc_class :=
| BaseException | SystemExit | KeyboardInterrupt | Exception
| ArithmeticError | ZeroDivisionError | AttributeError
| LookupError | KeyError | IndexError | MemoryError
| OSError | FileNotFoundError | PermissionError | IsADirectoryError
| BrokenPipeError | RuntimeError | TypeError | ValueError.

#[global] Instance exc_class_eq_dec : EqDecision exc_class.
Proof. solve_decision. Defined.

Definition base (c : exc_class) : option exc_class :=
  match c with
  | BaseException => None
  | SystemExit | KeyboardInterrupt | Exception => Some BaseException
  | ArithmeticError | AttributeError | LookupError | MemoryError
  | OSError | RuntimeError | TypeError | ValueError => Some Exception
  | ZeroDivisionError => Some ArithmeticError
  | KeyError | IndexError => Some LookupError
  | FileNotFoundError | PermissionError | IsADirectoryError
  | BrokenPipeError => Some OSError
  end.

(** [issubclass c d]: [d] is [c] or one of its ancestors.  The hierarchy
    above is three levels deep; the walk is given room to spare. *)
Fixpoint issubclass_upto (n : nat) (c d : exc_class) : bool :=
  bool_decide (c = d) ||
  match n, base c with
  | S n', Some p => issubclass_upto n' p d
  | _, _ => false
  end.

Definition issubclass : exc_class -> exc_class -> bool := issubclass_upto 4.

Record exn := Exn { exc_type : exc_class; exc_msg : string }.

(** [except cls:] handles an exception when it is an instance of [cls]. *)
Definition isinstance (e : exn) (cls : exc_class) : bool :=
  issubclass (exc_type e) cls.


(** ** Values *)

Definition handle := Z.

(** What a command-line dictionary holds and what is passed by value. *)
Inductive scalar :=
| SNone
| SBool (b : bool)
| SInt (z : Z)
| SFloat (f : float)
| SStr (s : string).

(** Python's truth value of a scalar, as [if x:] tests it. *)
Definition truthy (x : scalar) : bool :=
  match x with
  | SNone => false
  | SBool b => b
  | SInt z => negb (z =? 0)
  | SFloat f => negb (PrimFloat.eqb f 0%float)
  | SStr s => negb (bool_decide (s = ""))
  end.

(** Values that come back from the frameworks.  A data frame is known by
    its identity and by [shape[0]]; a Keras [History] by its [history]
    dictionary; everything else (arrays, generators, Keras models,
    optimizers) by identity alone. *)
#[warnings="-register-all"]
Inductive value :=
| VScalar (x : scalar)
| VTuple (vs : list value)
| VFrame (h : handle) (rows : Z)
| VObject (h : handle)
| VHistory (history : gmap string (list float)).

Abbreviation VNone := (VScalar SNone).

(** ** Model objects and callbacks *)

(** The attributes of a model object of [models.py] that the script reads.
    Its methods [get_model] and [get_classifier_model] are calls below. *)
Record model_object := ModelObject {
  MODEL_NAME : string;
  WEIGHT_PATH : string;
  FIT_HISTORY_PATH : string
}.

(** The Keras callback objects the script constructs, with the arguments
    it gives them (positional first, then keywords in the source order). *)
Inductive callback :=
| CSVLogger (filename : string) (append : bool) (separator : string)
| ModelCheckpoint (filepath : string) (monitor : string) (verbose : Z)
    (save_best_only : bool) (mode : string) (save_weights_only : bool)
| ReduceLROnPlateau (monitor : string) (factor : float) (patience : Z)
    (verbose : Z) (mode : string) (min_delta : float) (cooldown : Z)
    (min_lr : float)
| EarlyStopping (monitor : string) (mode : string) (verbose : Z)
    (patience : Z).

(** [get_callbacks], lines 21-40. *)
Definition get_callbacks (seg_model : model_object) : list callback :=
  let csv_logger := CSVLogger (FIT_HISTORY_PATH seg_model) false ";" in
  let checkpoint :=
    ModelCheckpoint (WEIGHT_PATH seg_model) "val_loss" 1 true "min" true in
  let reduceLROnPlat :=
    ReduceLROnPlateau "val_loss" 0.2%float 1 1 "min" 0.001%float 0
      1e-8%float in
  let early := EarlyStopping "val_loss" "min" 2 15 in
  [checkpoint; early; reduceLROnPlat; csv_logger].

(** The file a callback writes during training, if it writes one:
    [CSVLogger] opens [filename], [ModelCheckpoint] saves to [filepath];
    [ReduceLROnPlateau] and [EarlyStopping] take no path. *)
Definition output_file (c : callback) : option string :=
  match c with
  | CSVLogger filename _ _ => Some filename
  | ModelCheckpoint filepath _ _ _ _ _ => Some filepath
  | ReduceLROnPlateau _ _ _ _ _ _ _ _ => None
  | EarlyStopping _ _ _ _ => None
  end.

(** ** Calls that leave the script *)

Inductive call :=
| load_dataset
| get_unique_img_ids (df : value)
| get_balanced_dataset (unique_img_ids : value)
| drop_empty_images (unique_img_ids : value)
| get_train_val_datasets (df balanced_dataset : value)
| split_validation_dataset (valid_df : value) (classify : scalar)
| get_classifier_model (seg_model : model_object) (train_only_top : scalar)
| get_model (seg_model : model_object) (train_only_top : scalar)
| summary (keras_model : value)
| print (v : value)
| load_weights (keras_model : value) (filepath : string)
| Adam (lr : scalar) (decay : float)
| compile (keras_model optimizer : value) (loss : string)
    (metrics : list string)
| make_image_gen (in_df : value) (classify : scalar)
| create_aug_gen (in_gen : value) (classify : scalar)
| fit_generator (keras_model generator : value) (steps_per_epoch : Z)
    (epochs : Z) (validation_data : value * value)
    (callbacks : list callback) (workers : Z) (max_queue_size : Z)
| gc_collect.

(** ** The monad: a trace of calls, a store of dictionaries, exceptions *)

Inductive result (A : Type) :=
| Ret (a : A)
| Raise (e : exn).
Arguments Ret {A} a.
Arguments Raise {A} e.

Record event := Event { ev_call : call; ev_resp : result value }.

Definition loc := positive.

(** A dictionary object lives in the store and is passed by reference. *)
Record state := State {
  trace : list event;
  heap : loc -> gmap string scalar;
  next_loc : loc
}.

Definition M (A : Type) : Type := state -> result A * state.

Definition ret {A} (a : A) : M A := fun st => (Ret a, st).

Definition raise {A} (c : exc_class) (msg : string) : M A :=
  fun st => (Raise (Exn c msg), st).

Definition bind {A B} (m : M A) (k : A -> M B) : M B :=
  fun st =>
    match m st with
    | (Ret a, st') => k a st'
    | (Raise e, st') => (Raise e, st')
    end.

Notation "x <- m ;; k" := (bind m (fun x => k))
  (at level 100, m at next level, right associativity).
Notation "m ;;; k" := (bind m (fun _ => k))
  (at level 100, right associativity).

(** [try: body  except cls: handler] *)
Definition try_except {A} (body : M A) (cls : exc_class) (handler : M A)
  : M A :=
  fun st =>
    match body st with
    | (Ret a, st') => (Ret a, st')
    | (Raise e, st') =>
        if isinstance e cls then handler st' else (Raise e, st')
    end.

(** [d[key]] on the dictionary at [d]: [KeyError] when [key] is absent. *)
Definition getitem (d : loc) (key : string) : M scalar :=
  fun st =>
    match heap st d !! key with
    | Some v => (Ret v, st)
    | None => (Raise (Exn KeyError key), st)
    end.

(** [d[key] = v]: the store operation no function of the script uses. *)
Definition setitem (d : loc) (key : string) (v : scalar) : M unit :=
  fun st =>
    (Ret tt,
     State (trace st)
       (fun l => if decide (l = d) then <[key := v]> (heap st l)
                 else heap st l)
       (next_loc st)).

(** A new dictionary object with the given contents. *)
Definition new_dict (contents : gmap string scalar) : M loc :=
  fun st =>
    let d := next_loc st in
    (Ret d,
     State (trace st)
       (fun l => if decide (l = d) then contents else heap st l)
       (Pos.succ d)).

(** ** The command line (lines 96-103)

    [argparse] is modelled on the fragment the script's parser is used
    through: every token is taken whole.  A token that begins with [-] is
    looked up among the option strings; one that is none of them is
    reported as [Unmodelled], because [argparse] may still read it as an
    unambiguous prefix, an [--opt=value] pair, a cluster or a negative
    number.  Any other token is a positional argument, which this parser
    does not declare: it is kept aside and refused once the whole command
    line has been read. *)

Inductive arg_type := type_str | type_float.

Inductive arg_action :=
| store (type : arg_type)
| store_true
| help.

(** [dest] and [default] are [None] when [argparse] holds [SUPPRESS]. *)
Record Action := MkAction {
  option_strings : list string;
  dest : option string;
  action : arg_action;
  default : option scalar
}.

Definition is_dash (c : ascii) : bool := bool_decide (c = "-"%char).

Definition starts_with_dash (s : string) : bool :=
  match s with
  | String c _ => is_dash c
  | EmptyString => false
  end.

(** A long option string has a second prefix character. *)
Definition is_long (s : string) : bool :=
  match s with
  | String _ (String c _) => is_dash c
  | _ => false
  end.

Fixpoint lstrip_dash (s : string) : string :=
  match s with
  | String c s' => if is_dash c then lstrip_dash s' else s
  | EmptyString => EmptyString
  end.

Fixpoint replace_dash (s : string) : string :=
  match s with
  | String c s' => String (if is_dash c then "_"%char else c) (replace_dash s')
  | EmptyString => EmptyString
  end.

(** The attribute name [add_argument] derives when [dest] is not given:
    the first long option string, or else the first option string, without
    its leading dashes and with inner dashes turned into underscores. *)
Definition infer_dest (flags : list string) : string :=
  let chosen :=
    match filter (fun s => is_long s = true) flags with
    | l :: _ => l
    | [] => match flags with f :: _ => f | [] => "" end
    end in
  replace_dash (lstrip_dash chosen).

(** [argparse.ArgumentParser()]: [add_help] is on by default, so the new
    parser already holds the [-h]/[--help] action. *)
Definition ArgumentParser : list Action :=
  [MkAction ["-h"; "--help"] None help None].

Definition add_argument (ap : list Action) (flags : list string)
    (act : arg_action) (default : scalar) : list Action :=
  ap ++ [MkAction flags (Some (infer_dest flags)) act (Some default)].

(** Lines 96-101. *)
Definition ap : list Action :=
  let ap := ArgumentParser in
  let ap := add_argument ap ["-mn"; "--model_name"] (store type_str)
              (SStr "simple_unet") in
  let ap := add_argument ap ["-lr"; "--learning_rate"] (store type_float)
              (SFloat 0.001%float) in
  let ap := add_argument ap ["-tt"; "--train_only_top"] store_true
              (SBool false) in
  let ap := add_argument ap ["-cl"; "--classify_mode"] store_true
              (SBool false) in
  let ap := add_argument ap ["-lw"; "--load_weights"] store_true
              (SBool false) in
  ap.

Definition find_action (actions : list Action) (tok : string)
  : option Action :=
  List.find (fun a => bool_decide (tok ∈ option_strings a)) actions.

(** The namespace before any token is read: every action with a [dest]
    and a [default] contributes its default. *)
Definition initial_namespace (actions : list Action) : gmap string scalar :=
  foldl (fun ns a =>
           match dest a, default a with
           | Some d, Some v => <[d := v]> ns
           | _, _ => ns
           end) ∅ actions.

Definition setattr (a : Action) (v : scalar) (ns : gmap string scalar)
  : gmap string scalar :=
  match dest a with
  | Some d => <[d := v]> ns
  | None => ns
  end.

(** A token of the fragment: one that does not begin with a dash, or an
    option string of the parser, taken whole. *)
Definition known_token (actions : list Action) (tok : string) : bool :=
  negb (starts_with_dash tok) ||
  match find_action actions tok with
  | Some _ => true
  | None => false
  end.

Inductive parse_outcome :=
| Parsed (namespace : gmap string scalar)
| Exit (status : Z)
| Unmodelled.

Section Argparse.

(** Python's [float(s)], [None] when it raises [ValueError]. *)
Variable float_of_string : string -> option float.

Definition get_value (ty : arg_type) (s : string) : option scalar :=
  match ty with
  | type_str => Some (SStr s)
  | type_float => SFloat <$> float_of_string s
  end.

(** Reads the tokens left to right.  [extras] records that a positional
    token was seen.  Every error exits with status 2.  [help] prints the
    usage and exits with status 0 when every token after it is a known
    one; [argparse] has looked at all tokens before it acts on the first,
    and whether one that is outside the fragment (an ambiguous prefix,
    say) ends the parse with an error before the usage is printed is not
    modelled. *)
Fixpoint consume (actions : list Action) (ns : gmap string scalar)
    (extras : bool) (argv : list string) : parse_outcome :=
  match argv with
  | [] => if extras then Exit 2 else Parsed ns
  | tok :: rest =>
      if starts_with_dash tok then
        match find_action actions tok with
        | None => Unmodelled
        | Some a =>
            match action a with
            | help =>
                if forallb (known_token actions) rest then Exit 0
                else Unmodelled
            | store_true => consume actions (setattr a (SBool true) ns) extras rest
            | store ty =>
                match rest with
                | [] => Exit 2
                | v :: rest' =>
                    if starts_with_dash v then
                      match find_action actions v with
                      | Some _ => Exit 2
                      | None => Unmodelled
                      end
                    else
                      match get_value ty v with
                      | Some x => consume actions (setattr a x ns) extras rest'
                      | None => Exit 2
                      end
                end
            end
        end
      else consume actions ns true rest
  end.

(** [vars(ap.parse_args())] on the tokens of [sys.argv[1:]]. *)
Definition parse_args (argv : list string) : parse_outcome :=
  consume ap (initial_namespace ap) false argv.

End Argparse.

(** The spellings and keys that statements about the parser speak of. *)

(** The spellings of the five options the script declares. *)
Definition declared_flags : list string :=
  ["-mn"; "--model_name"; "-lr"; "--learning_rate"; "-tt"; "--train_only_top";
   "-cl"; "--classify_mode"; "-lw"; "--load_weights"].

Definition namespace_keys : gset string :=
  list_to_set ["model_name"; "learning_rate"; "train_only_top";
               "classify_mode"; "load_weights"].

(** The flags set by their presence, with the key each one sets. *)
Definition boolean_flags : list (string * string) :=
  [("-tt", "train_only_top"); ("--train_only_top", "train_only_top");
   ("-cl", "classify_mode"); ("--classify_mode", "classify_mode");
   ("-lw", "load_weights"); ("--load_weights", "load_weights")].

(** The claim that the parser knows the five options and no other. *)
Definition accepts_exactly_five_flags : Prop :=
  forall tok, is_Some (find_action ap tok) <-> tok ∈ declared_flags.

(** The token that follows the last occurrence of one of [flags] on a
    command line. *)
Fixpoint value_after (flags : list string) (argv : list string)
  : option string :=
  match argv with
  | [] => None
  | tok :: rest =>
      match value_after flags rest with
      | Some v => Some v
      | None => if bool_decide (tok ∈ flags) then head rest else None
      end
  end.



(** ** numpy and Python helpers used by the script *)

(** [np.minimum] on two doubles: a NaN on either side wins. *)
Definition np_minimum (a b : float) : float :=
  if PrimFloat.is_nan a then a
  else if PrimFloat.is_nan b then b
  else if PrimFloat.ltb b a then b else a.

(** The place of a float that is not NaN in the order that [SFcompare]
    decides: its class (infinities, negative, zero, positive), then its
    exponent and mantissa. *)
Definition order_key (x : spec_float) : Z * Z * Z :=
  match x with
  | S754_zero _ => (0, 0, 0)
  | S754_infinity s => (if s then -2 else 2, 0, 0)
  | S754_nan => (0, 0, 0)
  | S754_finite s m e =>
      if s then (-1, - e, - Zpos m) else (1, e, Zpos m)
  end.

Definition key_lt (a b : Z * Z * Z) : Prop :=
  let '(a1, a2, a3) := a in
  let '(b1, b2, b3) := b in
  a1 < b1 \/ (a1 = b1 /\ (a2 < b2 \/ (a2 = b2 /\ a3 < b3))).

Definition float_key (x : float) : Z * Z * Z := order_key (Prim2SF x).

(** [np.min] of a list of rows, taken over every entry; numpy refuses an
    array without entries. *)
Definition np_min (rows : list (list float)) : M float :=
  match concat rows with
  | [] => raise ValueError "zero-size array to reduction operation minimum which has no identity"
  | x :: xs => ret (foldl np_minimum x xs)
  end.

(** [mh.history['val_loss']] *)
Definition history_val_loss (mh : value) : M (list float) :=
  match mh with
  | VHistory history =>
      match history !! "val_loss" with
      | Some l => ret l
      | None => raise KeyError "val_loss"
      end
  | _ => raise AttributeError "history"
  end.

(** A list comprehension whose element expression may raise. *)
Fixpoint comprehension {A B} (f : A -> M B) (l : list A) : M (list B) :=
  match l with
  | [] => ret []
  | a :: l' => b <- f a ;; bs <- comprehension f l' ;; ret (b :: bs)
  end.

(** [a, b = v].  Only tuples are taken to be iterable. *)
Definition unpack2 (v : value) : M (value * value) :=
  match v with
  | VTuple [a; b] => ret (a, b)
  | VTuple _ => raise ValueError "wrong number of values to unpack"
  | _ => raise TypeError "cannot unpack non-iterable object"
  end.

(** [df.shape[0]] *)
Definition shape0 (df : value) : M Z :=
  match df with
  | VFrame _ rows => ret rows
  | _ => raise AttributeError "shape"
  end.

(** [a // b] on integers: floor division, [ZeroDivisionError] on zero. *)
Definition floordiv (a b : Z) : M Z :=
  if b =? 0 then raise ZeroDivisionError "integer division or modulo by zero"
  else ret (a `div` b).

(** [d.get(key)] on a dictionary with string keys: [None] stands for
    Python's [None]; a key that is not a string equals no string. *)
Definition dict_get {V} (d : gmap string V) (key : scalar) : option V :=
  match key with
  | SStr s => d !! s
  | _ => None
  end.

(** Looking a method up on the result of [dict_get]. *)
Definition getattr {V} (o : option V) (name : string) : M V :=
  match o with
  | Some m => ret m
  | None => raise AttributeError name
  end.

(** The outcome of the retry loop within a bounded number of rounds. *)
Inductive loop_outcome := Broke | StillLooping.

(** ** The script *)

Section Driver.

(** The seven model objects that [models.py] constructs (line 17). *)
Variables UNet2 UNet TernausNetV1 TernausNetV2 : model_object.
Variables VGG19UNetV1 VGG19UNetV2 ResNet50UnetV1 : model_object.

(** The constants of [config.py] (line 8). *)
Variables MAX_TRAIN_EPOCHS MAX_TRAIN_STEPS BATCH_SIZE : Z.

(** What the frameworks answer to a call, given all earlier calls. *)
Variable env : list event -> call -> result value.

(** Line 17: a dictionary comprehension; a later model with the same
    name replaces an earlier one. *)
Definition AVAILABLE_MODELS : gmap string model_object :=
  foldl (fun d model => <[MODEL_NAME model := model]> d) ∅
    [UNet2; UNet; TernausNetV1; TernausNetV2;
     VGG19UNetV1; VGG19UNetV2; ResNet50UnetV1].

(** A call into a framework: the environment answers, the trace grows.
    A method call on a framework object is one call: looking the method
    up and running it are both the framework's. *)
Definition extern (c : call) : M value :=
  fun st =>
    let r := env (trace st) c in
    (r, State (trace st ++ [Event c r]) (heap st) (next_loc st)).

(** Lines 43-48. *)
Definition load_weight_if_possible (seg_model : model_object)
    (keras_model : value) : M unit :=
  try_except
    (extern (load_weights keras_model (WEIGHT_PATH seg_model)) ;;;
     extern (print (VScalar (SStr "Weights loaded!"))) ;;;
     ret tt)
    OSError
    (extern (print (VScalar (SStr
       "No file with weights available! Starting from scratch..."))) ;;;
     ret tt).

(** Lines 51-62. *)
Definition load_data (args : loc) : M (value * value * value) :=
  df <- extern load_dataset ;;
  unique_img_ids <- extern (get_unique_img_ids df) ;;
  classify_mode <- getitem args "classify_mode" ;;
  balanced_dataset <-
    (if truthy classify_mode
     then extern (get_balanced_dataset unique_img_ids)
     else extern (drop_empty_images unique_img_ids)) ;;
  p <- extern (get_train_val_datasets df balanced_dataset) ;;
  p <- unpack2 p ;;
  let '(train_df, valid_df) := p in
  classify <- getitem args "classify_mode" ;;
  q <- extern (split_validation_dataset valid_df classify) ;;
  q <- unpack2 q ;;
  let '(valid_x, valid_y) := q in
  ret (train_df, valid_x, valid_y).

(** Lines 65-92.  The callee of a call is evaluated before its
    arguments, so the method is looked up on [seg_model] before
    [args['train_only_top']] is read. *)
Definition fit (train_df valid_x valid_y : value) (args : loc)
  : M (list value) :=
  model_name <- getitem args "model_name" ;;
  let seg_model := dict_get AVAILABLE_MODELS model_name in
  classify <- getitem args "classify_mode" ;;
  built <-
    (if truthy classify then
       seg_model <- getattr seg_model "get_classifier_model" ;;
       train_only_top <- getitem args "train_only_top" ;;
       keras_model <- extern (get_classifier_model seg_model train_only_top) ;;
       ret (seg_model, keras_model)
     else
       seg_model <- getattr seg_model "get_model" ;;
       train_only_top <- getitem args "train_only_top" ;;
       keras_model <- extern (get_model seg_model train_only_top) ;;
       ret (seg_model, keras_model)) ;;
  let '(seg_model, keras_model) := built in
  text <- extern (summary keras_model) ;;
  extern (print text) ;;;
  let callbacks_list := get_callbacks seg_model in
  load_weights_flag <- getitem args "load_weights" ;;
  (if truthy load_weights_flag
   then load_weight_if_possible seg_model keras_model
   else ret tt) ;;;
  learning_rate <- getitem args "learning_rate" ;;
  optimizer <- extern (Adam learning_rate 0.000001%float) ;;
  extern (compile keras_model optimizer "binary_crossentropy" ["accuracy"]) ;;;
  rows <- shape0 train_df ;;
  quotient <- floordiv rows BATCH_SIZE ;;
  let step_count := Z.min MAX_TRAIN_STEPS quotient in
  gen <- extern (make_image_gen train_df classify) ;;
  aug_gen <- extern (create_aug_gen gen classify) ;;
  history <- extern (fit_generator keras_model aug_gen step_count
                       MAX_TRAIN_EPOCHS (valid_x, valid_y) callbacks_list
                       1 1) ;;
  let loss_hist := [history] in
  ret loss_hist.

(** Line 110: [np.min([mh.history['val_loss'] for mh in loss_history]) < 0.2] *)
Definition below_threshold (loss_history : list value) : M bool :=
  rows <- comprehension history_val_loss loss_history ;;
  m <- np_min rows ;;
  ret (PrimFloat.ltb m 0.2%float).

(** Lines 107-111, for at most [rounds] rounds of the loop. *)
Fixpoint main_loop (rounds : nat) (train_df valid_x valid_y : value)
    (args : loc) : M loop_outcome :=
  match rounds with
  | O => ret StillLooping
  | S rounds' =>
      loss_history <- fit train_df valid_x valid_y args ;;
      extern gc_collect ;;;
      stop <- below_threshold loss_history ;;
      if stop : bool then ret Broke
      else main_loop rounds' train_df valid_x valid_y args
  end.

(** Lines 103-111, from the dictionary that [vars(ap.parse_args())]
    returned. *)
Definition main (namespace : gmap string scalar) (rounds : nat)
  : M loop_outcome :=
  args <- new_dict namespace ;;
  data <- load_data args ;;
  let '(train_df, valid_x, valid_y) := data in
  main_loop rounds train_df valid_x valid_y args.

(** *** What the theorems speak of

    [emits Q m]: every run of [m] leaves the dictionaries as they were
    and adds to the trace only events that satisfy [Q]. *)

Definition extends (st st' : state) (new : list event) : Prop :=
  trace st' = trace st ++ new /\ heap st' = heap st /\
  next_loc st' = next_loc st.

Definition emits {A} (Q : event -> Prop) (m : M A) : Prop :=
  forall st r st', m st = (r, st') ->
    exists new, extends st st' new /\ Forall Q new.

Definition is_fit_generator (c : call) : bool :=
  match c with
  | fit_generator _ _ _ _ _ _ _ _ => true
  | _ => false
  end.

(** The worker count and queue size a call hands to the framework: only
    [fit_generator] takes them. *)
Definition concurrency_arguments (c : call) : option (Z * Z) :=
  match c with
  | fit_generator _ _ _ _ _ _ workers max_queue_size =>
      Some (workers, max_queue_size)
  | _ => None
  end.

(** The files a call can cause to be written: those of the callbacks it
    is given. *)
Definition written_files (c : call) : list string :=
  match c with
  | fit_generator _ _ _ _ _ callbacks _ _ => omap output_file callbacks
  | _ => []
  end.

Definition any_event (ev : event) : Prop := True.

Definition single_worker (ev : event) : Prop :=
  forall p, concurrency_arguments (ev_call ev) = Some p -> p = (1, 1).

(** What a call may write, in a run of the script: nothing, or the two
    files of the callbacks that [get_callbacks] builds for a registered
    model. *)
Definition writes_through_callbacks (ev : event) : Prop :=
  match ev_call ev with
  | fit_generator _ _ _ _ _ callbacks _ _ =>
      exists name seg_model,
        AVAILABLE_MODELS !! name = Some seg_model /\
        callbacks = get_callbacks seg_model
  | c => written_files c = []
  end.

(** What line 83 computes for a frame of [rows] rows. *)
Definition expected_step_count (rows : Z) : Z :=
  Z.min MAX_TRAIN_STEPS (rows `div` BATCH_SIZE).

Definition steps_as_expected (train_df : value) (ev : event) : Prop :=
  forall keras_model aug_gen steps epochs data callbacks workers queue,
    ev_call ev = fit_generator keras_model aug_gen steps epochs data
                   callbacks workers queue ->
    exists h rows,
      train_df = VFrame h rows /\ BATCH_SIZE <> 0 /\
      steps = expected_step_count rows /\
      steps <= MAX_TRAIN_STEPS /\
      (0 <= MAX_TRAIN_STEPS -> 0 <= rows < BATCH_SIZE -> steps = 0).

(** [answered tr evs]: from the trace [tr], the environment answers the
    calls of [evs] one after the other with the responses of [evs]. *)
Fixpoint answered (tr : list event) (evs : list event) : Prop :=
  match evs with
  | [] => True
  | ev :: evs' =>
      env tr (ev_call ev) = ev_resp ev /\ answered (tr ++ [ev]) evs'
  end.

(** The calls of a run of [load_data] in which every call returns. *)
Definition load_data_events (classify : scalar)
    (df unique_img_ids balanced_dataset train_df valid_df valid_x valid_y
       : value) : list event :=
  [Event load_dataset (Ret df);
   Event (get_unique_img_ids df) (Ret unique_img_ids);
   Event (if truthy classify
          then get_balanced_dataset unique_img_ids
          else drop_empty_images unique_img_ids) (Ret balanced_dataset);
   Event (get_train_val_datasets df balanced_dataset)
     (Ret (VTuple [train_df; valid_df]));
   Event (split_validation_dataset valid_df classify)
     (Ret (VTuple [valid_x; valid_y]))].

(** The calls inside the [try] block of [load_weight_if_possible]. *)
Definition in_try_block (c : call) : bool :=
  match c with
  | load_weights _ _ => true
  | print (VScalar (SStr s)) => bool_decide (s = "Weights loaded!")
  | _ => false
  end.

Definition raised {A} (r : result A) : option exn :=
  match r with
  | Raise e => Some e
  | Ret _ => None
  end.




(** *** A concrete run

    Sample model objects, constants and framework answers on which the
    theorems are evaluated. *)

Definition sample_model (name : string) : model_object :=
  ModelObject name ("weights/" +:+ name) ("history/" +:+ name).

Definition sample_fit_generator_calls (tr : list event) : nat :=
  length (List.filter (fun ev => is_fit_generator (ev_call ev)) tr).

(** Every call succeeds except [load_weights], which finds no file; the
    validation loss falls below 0.2 in the second round of training. *)
Definition sample_env (tr : list event) (c : call) : result value :=
  match c with
  | load_dataset => Ret (VFrame 1 1000)
  | get_unique_img_ids _ => Ret (VObject 2)
  | get_balanced_dataset _ => Ret (VObject 3)
  | drop_empty_images _ => Ret (VObject 4)
  | get_train_val_datasets _ _ => Ret (VTuple [VFrame 5 100; VFrame 6 20])
  | split_validation_dataset _ _ => Ret (VTuple [VObject 7; VObject 8])
  | get_classifier_model _ _ => Ret (VObject 9)
  | get_model _ _ => Ret (VObject 9)
  | summary _ => Ret VNone
  | print _ => Ret VNone
  | load_weights _ _ =>
      Raise (Exn FileNotFoundError "No such file or directory")
  | Adam _ _ => Ret (VObject 10)
  | compile _ _ _ _ => Ret VNone
  | make_image_gen _ _ => Ret (VObject 11)
  | create_aug_gen _ _ => Ret (VObject 12)
  | fit_generator _ _ _ _ _ _ _ _ =>
      Ret (VHistory {[ "val_loss" :=
             match sample_fit_generator_calls tr with
             | O => [0.5%float; 0.3%float]
             | _ => [0.25%float; 0.15%float]
             end ]})
  | gc_collect => Ret (VScalar (SInt 0))
  end.


(** The store after the default command line has been parsed: the
    dictionary of defaults sits at location 1. *)
Definition sample_state : state :=
  State [] (fun l => if decide (l = 1%positive) then initial_namespace ap else ∅)
    2%positive.

Definition sample_args : loc := 1%positive.

Definition sample_history : gmap string (list float) :=
  {[ "val_loss" := [0.5%float; 0.3%float] ]}.

(** A dictionary whose model name the registry does not know. *)
Definition sample_state_unknown_model : state :=
  State []
    (fun _ => <["model_name" := SStr "no_such_model"]> (initial_namespace ap))
    2%positive.

(** *** Where the command-line values go

    [wired d ev]: the call [ev] takes from the dictionary [d] what the
    script means it to take. *)
Definition wired (d : gmap string scalar) (ev : event) : Prop :=
  match ev_call ev with
  | get_classifier_model seg_model train_only_top =>
      (exists name, d !! "model_name" = Some name /\
                    dict_get AVAILABLE_MODELS name = Some seg_model) /\
      (exists classify, d !! "classify_mode" = Some classify /\
                        truthy classify = true) /\
      d !! "train_only_top" = Some train_only_top
  | get_model seg_model train_only_top =>
      (exists name, d !! "model_name" = Some name /\
                    dict_get AVAILABLE_MODELS name = Some seg_model) /\
      (exists classify, d !! "classify_mode" = Some classify /\
                        truthy classify = false) /\
      d !! "train_only_top" = Some train_only_top
  | load_weights _ _ =>
      exists flag, d !! "load_weights" = Some flag /\ truthy flag = true
  | Adam lr decay =>
      d !! "learning_rate" = Some lr /\ decay = 0.000001%float
  | make_image_gen _ classify => d !! "classify_mode" = Some classify
  | create_aug_gen _ classify => d !! "classify_mode" = Some classify
  | _ => True
  end.

(** *** The model that is trained *)

(** The model object whose method a call runs to build a Keras model. *)
Definition builds (c : call) : option model_object :=
  match c with
  | get_classifier_model seg_model _ | get_model seg_model _ => Some seg_model
  | _ => None
  end.

(** [follows_build seg_model built ev]: the call [ev] builds no model,
    and where it takes a Keras model, a weights file or callbacks, they
    are the model that the build call answered with, the weights file of
    [seg_model] and the callbacks made for [seg_model]. *)
Definition follows_build (seg_model : model_object) (built : result value)
    (ev : event) : Prop :=
  match ev_call ev with
  | get_classifier_model _ _ | get_model _ _ => False
  | summary m => built = Ret m
  | load_weights m filepath =>
      built = Ret m /\ filepath = WEIGHT_PATH seg_model
  | compile m _ _ _ => built = Ret m
  | fit_generator m _ _ _ _ callbacks _ _ =>
      built = Ret m /\ callbacks = get_callbacks seg_model
  | _ => True
  end.

(** The first call builds the model, and every call after it follows
    that build; the weights file is the one the checkpoint callback
    writes. *)
Definition built_once (new : list event) : Prop :=
  match new with
  | [] => True
  | first :: rest =>
      exists seg_model,
        builds (ev_call first) = Some seg_model /\
        Forall (follows_build seg_model (ev_resp first)) rest /\
        ModelCheckpoint (WEIGHT_PATH seg_model) "val_loss" 1 true "min" true
          ∈ get_callbacks seg_model
  end.

(** [handed_on ev next]: what [ev] answered is what the call after it
    is given, for the four calls whose answer the script passes on at
    once. *)
Definition handed_on (ev next : event) : Prop :=
  match ev_call ev, ev_call next with
  | summary _, print text => ev_resp ev = Ret text
  | Adam _ _, compile _ optimizer _ _ => ev_resp ev = Ret optimizer
  | make_image_gen _ _, create_aug_gen in_gen _ => ev_resp ev = Ret in_gen
  | create_aug_gen _ _, fit_generator _ generator _ _ _ _ _ _ =>
      ev_resp ev = Ret generator
  | (summary _ | Adam _ _ | make_image_gen _ _ | create_aug_gen _ _), _ =>
      False
  | _, _ => True
  end.

(** [chained R l]: [R] holds of every two neighbours of [l]. *)
Fixpoint chained {A} (R : A -> A -> Prop) (l : list A) : Prop :=
  match l with
  | a :: (b :: _) as l' => R a b /\ chained R l'
  | _ => True
  end.

(** *** What training needs *)

(** What [fit] must find before it calls [fit_generator]. *)
Definition ready_to_train (train_df : value) (d : gmap string scalar)
  : Prop :=
  (forall key, key ∈ namespace_keys -> is_Some (d !! key)) /\
  (exists name seg_model,
      d !! "model_name" = Some (SStr name) /\
      AVAILABLE_MODELS !! name = Some seg_model) /\
  (exists h rows, train_df = VFrame h rows) /\
  BATCH_SIZE <> 0.

Definition trains_when_ready (train_df : value) (d : gmap string scalar)
    (ev : event) : Prop :=
  is_fit_generator (ev_call ev) = true -> ready_to_train train_df d.

(** The exceptions that [fit] raises by itself, each with its cause. *)
Definition own_failure (train_df : value) (d : gmap string scalar)
    (e : exn) : Prop :=
  (exists key,
      key ∈ namespace_keys /\ d !! key = None /\ e = Exn KeyError key) \/
  (exists name classify,
      d !! "model_name" = Some name /\
      dict_get AVAILABLE_MODELS name = None /\
      d !! "classify_mode" = Some classify /\
      e = Exn AttributeError
            (if truthy classify then "get_classifier_model"
             else "get_model")) \/
  ((forall h rows, train_df <> VFrame h rows) /\
   e = Exn AttributeError "shape") \/
  (BATCH_SIZE = 0 /\
   e = Exn ZeroDivisionError "integer division or modulo by zero").

(** How a run of [fit] can end: with the answer of [fit_generator], with
    the exception of the last call it made, or with an exception of its
    own. *)
Definition fit_outcome (train_df : value) (d : gmap string scalar)
    (new : list event) (r : result (list value)) : Prop :=
  match r with
  | Ret loss_hist =>
      exists c history,
        last new = Some (Event c (Ret history)) /\
        is_fit_generator c = true /\ loss_hist = [history]
  | Raise e =>
      (exists c, last new = Some (Event c (Raise e))) \/
      own_failure train_df d e
  end.

(** The step count of a call leaves every batch of an epoch within the
    frame, and reaches the configured maximum exactly when the frame has
    rows for that many batches. *)
Definition steps_within_frame (train_df : value) (ev : event) : Prop :=
  match ev_call ev with
  | fit_generator _ _ steps _ _ _ _ _ =>
      exists h rows,
        train_df = VFrame h rows /\
        0 <= steps /\ steps * BATCH_SIZE <= rows /\
        (steps = MAX_TRAIN_STEPS <-> MAX_TRAIN_STEPS * BATCH_SIZE <= rows)
  | _ => True
  end.

(** *** The message of the handler *)

Definition reports_missing_weights (ev : event) : Prop :=
  ev_call ev = print (VScalar (SStr
    "No file with weights available! Starting from scratch...")).

Definition oserror_in_try_block (ev : event) : Prop :=
  in_try_block (ev_call ev) = true /\
  exists e, ev_resp ev = Raise e /\ isinstance e OSError = true.

(** Standard output is a pipe that has been closed, and the weights file
    is there. *)
Definition sample_env_closed_stdout (tr : list event) (c : call)
  : result value :=
  match c with
  | load_weights _ _ => Ret VNone
  | print _ => Raise (Exn BrokenPipeError "Broken pipe")
  | _ => sample_env tr c
  end.

(** *** The data of the training rounds *)

Definition is_data_call (c : call) : bool :=
  match c with
  | load_dataset | get_unique_img_ids _ | get_balanced_dataset _
  | drop_empty_images _ | get_train_val_datasets _ _
  | split_validation_dataset _ _ => true
  | _ => false
  end.

(** [trains_on train_df valid_x valid_y ev]: the call [ev] loads no
    data, and where it takes training or validation data they are the
    given ones. *)
Definition trains_on (train_df valid_x valid_y : value) (ev : event)
  : Prop :=
  match ev_call ev with
  | make_image_gen in_df _ => in_df = train_df
  | fit_generator _ _ _ _ validation_data _ _ _ =>
      validation_data = (valid_x, valid_y)
  | c => is_data_call c = false
  end.

(** *** The rounds of the loop *)

(** What a training that returned has returned. *)
Definition training_answer (ev : event) : option value :=
  match ev_call ev, ev_resp ev with
  | fit_generator _ _ _ _ _ _ _ _, Ret history => Some history
  | _, _ => None
  end.

(** [tested_below history stop]: the test of line 110 on the one-element
    list of [history] gives [stop]. *)
Definition tested_below (history : value) (stop : bool) : Prop :=
  forall st, below_threshold [history] st = (Ret stop, st).

(** What the histories of the trainings say of a run of the loop. *)
Definition loop_record (rounds : nat) (histories : list value)
    (r : result loop_outcome) : Prop :=
  match r with
  | Ret Broke =>
      exists earlier final,
        histories = earlier ++ [final] /\
        Forall (fun h => tested_below h false) earlier /\
        tested_below final true /\
        (length earlier < rounds)%nat
  | Ret StillLooping =>
      Forall (fun h => tested_below h false) histories /\
      length histories = rounds
  | Raise _ =>
      exists earlier,
        Forall (fun h => tested_below h false) earlier /\
        (length earlier < rounds)%nat /\
        (histories = earlier \/ exists final, histories = earlier ++ [final])
  end.

(** *** A sample command line *)

(** Python's [float] on the one number the sample command line gives. *)
Definition sample_float_of_string (s : string) : option float :=
  if bool_decide (s = "0.01") then Some 0.01%float else None.

Definition sample_argv : list string :=
  ["-mn"; "unet"; "-cl"; "--model_name"; "vgg19"; "-lr"; "0.01"].


(** *** Runs: inversion and composition *)

Lemma extends_refl st : extends st st [].
Proof. unfold extends. by rewrite app_nil_r. Qed.

Lemma extends_trans st1 st2 st3 new1 new2 :
  extends st1 st2 new1 -> extends st2 st3 new2 ->
  extends st1 st3 (new1 ++ new2).
Proof.
  intros (Ht1 & Hh1 & Hn1) (Ht2 & Hh2 & Hn2). unfold extends.
  rewrite Ht2, Ht1, Hh2, Hh1, Hn2, Hn1, app_assoc. done.
Qed.

Lemma bind_inv {A B} (m : M A) (k : A -> M B) st r st' :
  bind m k st = (r, st') ->
  (exists a st1, m st = (Ret a, st1) /\ k a st1 = (r, st')) \/
  (exists e, m st = (Raise e, st') /\ r = Raise e).
Proof.
  unfold bind. destruct (m st) as [[a | e] st1]; intros H.
  - left. eauto.
  - right. inversion H; subst. eauto.
Qed.

Lemma extern_inv c st r st' :
  extern c st = (r, st') ->
  env (trace st) c = r /\ extends st st' [Event c r].
Proof.
  unfold extern, extends. intros H. inversion H; subst. simpl. done.
Qed.

Lemma getitem_inv d key st r st' :
  getitem d key st = (r, st') ->
  st' = st /\
  match heap st d !! key with
  | Some v => r = Ret v
  | None => r = Raise (Exn KeyError key)
  end.
Proof.
  unfold getitem. destruct (heap st d !! key); intros H;
    inversion H; subst; done.
Qed.

Lemma emits_ret {A} Q (a : A) : emits Q (ret a).
Proof.
  intros st r st' H. inversion H; subst.
  exists []. split; [apply extends_refl | constructor].
Qed.

Lemma emits_raise {A} Q c msg : emits Q (@raise A c msg).
Proof.
  intros st r st' H. inversion H; subst.
  exists []. split; [apply extends_refl | constructor].
Qed.

Lemma emits_bind {A B} Q (m : M A) (k : A -> M B) :
  emits Q m ->
  (forall a st st1, m st = (Ret a, st1) -> emits Q (k a)) ->
  emits Q (bind m k).
Proof.
  intros Hm Hk st r st' H.
  destruct (bind_inv _ _ _ _ _ H) as [(a & st1 & H1 & H2) | (e & H1 & ->)].
  - destruct (Hm _ _ _ H1) as (new1 & E1 & F1).
    destruct (Hk _ _ _ H1 _ _ _ H2) as (new2 & E2 & F2).
    exists (new1 ++ new2). split; [by eapply extends_trans |].
    by apply Forall_app.
  - by apply Hm in H1.
Qed.

Lemma emits_extern Q c : (forall r, Q (Event c r)) -> emits Q (extern c).
Proof.
  intros HQ st r st' H. apply extern_inv in H as [_ H].
  exists [Event c r]. split; [done |]. by repeat constructor.
Qed.

Lemma emits_getitem Q d key : emits Q (getitem d key).
Proof.
  intros st r st' H. apply getitem_inv in H as [-> _].
  exists []. split; [apply extends_refl | constructor].
Qed.

Lemma emits_try_except {A} Q (body handler : M A) cls :
  emits Q body -> emits Q handler -> emits Q (try_except body cls handler).
Proof.
  intros Hb Hh st r st' H. unfold try_except in H.
  destruct (body st) as [[a | e] st1] eqn:Hbody.
  - inversion H; subst. by apply Hb in Hbody.
  - destruct (isinstance e cls).
    + destruct (Hb _ _ _ Hbody) as (new1 & E1 & F1).
      destruct (Hh _ _ _ H) as (new2 & E2 & F2).
      exists (new1 ++ new2). split; [by eapply extends_trans |].
      by apply Forall_app.
    + inversion H; subst. by apply Hb in Hbody.
Qed.

Lemma emits_unpack2 Q v : emits Q (unpack2 v).
Proof.
  unfold unpack2.
  destruct v as [| [| ? [| ? [| ? ?]]] | | |];
    first [apply emits_ret | apply emits_raise].
Qed.

Lemma emits_shape0 Q v : emits Q (shape0 v).
Proof. destruct v; first [apply emits_ret | apply emits_raise]. Qed.

Lemma emits_floordiv Q a b : emits Q (floordiv a b).
Proof.
  unfold floordiv. destruct (b =? 0);
    first [apply emits_ret | apply emits_raise].
Qed.

Lemma emits_getattr {V} Q (o : option V) name : emits Q (getattr o name).
Proof. destruct o; first [apply emits_ret | apply emits_raise]. Qed.

Lemma emits_history_val_loss Q v : emits Q (history_val_loss v).
Proof.
  destruct v; simpl; try apply emits_raise.
  destruct (_ !! _); first [apply emits_ret | apply emits_raise].
Qed.

Lemma emits_np_min Q rows : emits Q (np_min rows).
Proof.
  unfold np_min. destruct (concat rows);
    first [apply emits_ret | apply emits_raise].
Qed.

Lemma emits_comprehension {A B} Q (f : A -> M B) l :
  (forall a, emits Q (f a)) -> emits Q (comprehension f l).
Proof.
  intros Hf. induction l as [| a l IH]; simpl.
  - apply emits_ret.
  - apply emits_bind; [apply Hf | intros].
    apply emits_bind; [apply IH | intros]. apply emits_ret.
Qed.

Lemma shape0_inv df st rows st1 :
  shape0 df st = (Ret rows, st1) -> exists h, df = VFrame h rows.
Proof. destruct df; inversion 1; subst; eauto. Qed.

Lemma floordiv_inv a b st q st1 :
  floordiv a b st = (Ret q, st1) -> b <> 0 /\ q = a `div` b.
Proof.
  unfold floordiv. destruct (Z.eqb_spec b 0); inversion 1; subst; done.
Qed.

Lemma getattr_inv {V} (o : option V) name st m st1 :
  getattr o name st = (Ret m, st1) -> o = Some m.
Proof. destruct o; inversion 1; subst; done. Qed.

Lemma dict_get_Some {V} (d : gmap string V) key v :
  dict_get d key = Some v -> exists s, key = SStr s /\ d !! s = Some v.
Proof. destruct key; simpl; intros H; try discriminate; eauto. Qed.

Lemma ret_inv {A} (a b : A) st st1 :
  ret a st = (Ret b, st1) -> a = b /\ st1 = st.
Proof. inversion 1; done. Qed.

Ltac emits_walk :=
  repeat first
    [ apply emits_ret | apply emits_raise | apply emits_getitem
    | apply emits_unpack2 | apply emits_shape0 | apply emits_floordiv
    | apply emits_getattr | apply emits_np_min
    | apply emits_history_val_loss
    | apply emits_comprehension; intros ?
    | apply emits_try_except
    | apply emits_bind; [| intros ? ? ? ?]
    | match goal with
      | |- emits _ (if ?b then _ else _) => destruct b eqn:?
      | |- emits _ (let '(_, _) := ?p in _) => destruct p
      end ].

Lemma load_weight_if_possible_emits Q seg_model keras_model :
  (forall c r, is_fit_generator c = false -> Q (Event c r)) ->
  emits Q (load_weight_if_possible seg_model keras_model).
Proof.
  intros HQ. unfold load_weight_if_possible. emits_walk;
    apply emits_extern; intros; by apply HQ.
Qed.

Lemma load_data_emits Q args :
  (forall c r, is_fit_generator c = false -> Q (Event c r)) ->
  emits Q (load_data args).
Proof.
  intros HQ. unfold load_data. emits_walk;
    apply emits_extern; intros; by apply HQ.
Qed.

(** Every call that [fit] makes, in any run: the one call of
    [fit_generator] has the arguments of lines 85-91, for a model of the
    registry and the row count of [train_df]. *)
Lemma fit_emits Q train_df valid_x valid_y args :
  (forall c r, is_fit_generator c = false -> Q (Event c r)) ->
  (forall name seg_model keras_model aug_gen h rows r,
      AVAILABLE_MODELS !! name = Some seg_model ->
      train_df = VFrame h rows -> BATCH_SIZE <> 0 ->
      Q (Event (fit_generator keras_model aug_gen
                  (Z.min MAX_TRAIN_STEPS (rows `div` BATCH_SIZE))
                  MAX_TRAIN_EPOCHS (valid_x, valid_y)
                  (get_callbacks seg_model) 1 1) r)) ->
  emits Q (fit train_df valid_x valid_y args).
Proof.
  intros HQ Hfit. unfold fit.
  apply emits_bind; [apply emits_getitem | intros model_name ? ? _].
  apply emits_bind; [apply emits_getitem | intros classify ? ? _].
  apply emits_bind.
  { destruct (truthy classify); emits_walk;
      apply emits_extern; intros; by apply HQ. }
  intros [seg_model keras_model] stb stb1 Hbuilt.
  assert (Hreg : exists name, AVAILABLE_MODELS !! name = Some seg_model).
  { destruct (truthy classify);
      apply bind_inv in Hbuilt as [(m & ? & Hm & Hrest) | (? & ? & ?)];
      try discriminate;
      apply getattr_inv, dict_get_Some in Hm as (name & _ & Hm);
      apply bind_inv in Hrest as [(? & ? & _ & Hrest) | (? & ? & ?)];
      try discriminate;
      apply bind_inv in Hrest as [(? & ? & _ & Hrest) | (? & ? & ?)];
      try discriminate;
      apply ret_inv in Hrest as [Hrest _]; inversion Hrest; subst; eauto. }
  destruct Hreg as (name & Hreg).
  apply emits_bind; [apply emits_extern; intros; by apply HQ | intros ? ? ? _].
  apply emits_bind; [apply emits_extern; intros; by apply HQ | intros ? ? ? _].
  apply emits_bind; [apply emits_getitem | intros flag ? ? _].
  apply emits_bind.
  { destruct (truthy flag);
      [by apply load_weight_if_possible_emits | apply emits_ret]. }
  intros ? ? ? _.
  apply emits_bind; [apply emits_getitem | intros ? ? ? _].
  apply emits_bind; [apply emits_extern; intros; by apply HQ | intros ? ? ? _].
  apply emits_bind; [apply emits_extern; intros; by apply HQ | intros ? ? ? _].
  apply emits_bind; [apply emits_shape0 | intros rows ? ? Hrows].
  apply shape0_inv in Hrows as (h & ->).
  apply emits_bind; [apply emits_floordiv | intros q ? ? Hq].
  apply floordiv_inv in Hq as (Hb & ->).
  apply emits_bind; [apply emits_extern; intros; by apply HQ | intros ? ? ? _].
  apply emits_bind; [apply emits_extern; intros; by apply HQ | intros ? ? ? _].
  apply emits_bind; [| intros; apply emits_ret].
  apply emits_extern. intros r. by eapply Hfit.
Qed.

Lemma below_threshold_emits Q loss_history :
  emits Q (below_threshold loss_history).
Proof. unfold below_threshold. emits_walk. Qed.

Lemma main_loop_emits Q rounds train_df valid_x valid_y args :
  (forall c r, is_fit_generator c = false -> Q (Event c r)) ->
  (forall name seg_model keras_model aug_gen h rows r,
      AVAILABLE_MODELS !! name = Some seg_model ->
      train_df = VFrame h rows -> BATCH_SIZE <> 0 ->
      Q (Event (fit_generator keras_model aug_gen
                  (Z.min MAX_TRAIN_STEPS (rows `div` BATCH_SIZE))
                  MAX_TRAIN_EPOCHS (valid_x, valid_y)
                  (get_callbacks seg_model) 1 1) r)) ->
  emits Q (main_loop rounds train_df valid_x valid_y args).
Proof.
  intros HQ Hfit. induction rounds as [| rounds IH]; simpl.
  - apply emits_ret.
  - apply emits_bind; [by apply fit_emits | intros ? ? ? _].
    apply emits_bind; [apply emits_extern; intros; by apply HQ | intros ? ? ? _].
    apply emits_bind; [apply below_threshold_emits | intros [] ? ? _].
    + apply emits_ret.
    + apply IH.
Qed.

Lemma emits_run {A} Q (m : M A) st :
  emits Q m ->
  exists new, trace (m st).2 = trace st ++ new /\ heap (m st).2 = heap st /\
              Forall Q new.
Proof.
  intros Hm. destruct (m st) as [r st'] eqn:H.
  destruct (Hm _ _ _ H) as (new & (Ht & Hh & _) & HF). eauto.
Qed.

Lemma emits_prefix {A} (m : M A) st r st' :
  emits any_event m -> m st = (r, st') -> trace st `prefix_of` trace st'.
Proof.
  intros Hm H. destruct (Hm _ _ _ H) as (new & (Ht & _) & _).
  exists new. done.
Qed.

Ltac emits_any :=
  first
    [ apply load_weight_if_possible_emits; intros; exact I
    | emits_walk; try (apply emits_extern; intros; exact I) ].

(** Turns what is known of the steps of a run into prefix facts. *)
Ltac prefixes :=
  repeat match goal with
  | H : ?m ?s = (_, ?s') |- _ =>
      lazymatch goal with
      | _ : trace s `prefix_of` trace s' |- _ => fail
      | _ => let P := fresh "P" in
             assert (P : trace s `prefix_of` trace s')
               by (eapply emits_prefix; [| exact H]; emits_any)
      end
  end.

(** When [fit] returns, the last thing it did was the call of
    [fit_generator], and it returns a one-element list holding that
    call's answer. *)
Lemma fit_returns train_df valid_x valid_y args st loss_hist st' :
  fit train_df valid_x valid_y args st = (Ret loss_hist, st') ->
  exists keras_model aug_gen step_count callbacks history before,
    loss_hist = [history] /\
    trace st' = before ++
      [Event (fit_generator keras_model aug_gen step_count MAX_TRAIN_EPOCHS
                (valid_x, valid_y) callbacks 1 1) (Ret history)] /\
    trace st `prefix_of` before.
Proof.
  unfold fit. intros H.
  repeat match type of H with
  | bind _ _ _ = (Ret _, _) =>
      apply bind_inv in H as [(? & ? & ? & H) | (? & ? & ?)];
        [| discriminate]
  | (let '(_, _) := ?p in _) _ = _ => destruct p
  end.
  apply ret_inv in H as [<- ->].
  match goal with
  | Hf : extern (fit_generator _ _ _ _ _ _ _ _) ?s = _ |- _ =>
      apply extern_inv in Hf as [_ (Hf & _ & _)]
  end.
  prefixes.
  do 6 eexists. split; [reflexivity |]. split; [eassumption |].
  repeat (etrans; [eassumption |]). done.
Qed.

(** *** Worker count and queue size *)

(** C5.  In every run of the retry loop, and of [fit] alone, each call
    that carries a worker count and a queue size (only [fit_generator]
    does) carries 1 and 1; the script makes no other kind of call that
    could set up threads.  Whenever [fit] returns, it has ended with that
    call of [fit_generator], with [workers=1] and [max_queue_size=1]. *)
Theorem fit_passes_one_worker_one_queue_slot
    rounds train_df valid_x valid_y args st :
  (forall r st',
      main_loop rounds train_df valid_x valid_y args st = (r, st') ->
      exists new, trace st' = trace st ++ new /\ Forall single_worker new) /\
  (forall r st',
      fit train_df valid_x valid_y args st = (r, st') ->
      exists new, trace st' = trace st ++ new /\ Forall single_worker new /\
        forall loss_hist, r = Ret loss_hist ->
          exists keras_model aug_gen step_count callbacks history earlier,
            loss_hist = [history] /\
            new = earlier ++
              [Event (fit_generator keras_model aug_gen step_count
                        MAX_TRAIN_EPOCHS (valid_x, valid_y) callbacks 1 1)
                 (Ret history)]).
Proof.
  assert (Hother : forall c r,
             is_fit_generator c = false -> single_worker (Event c r)).
  { intros c r Hc p. destruct c; simpl in *; intros; congruence. }
  assert (Hgen : forall km g s e vd cbs r,
             single_worker (Event (fit_generator km g s e vd cbs 1 1) r)).
  { intros km g s e vd cbs r p. simpl. intros; congruence. }
  split.
  - intros r st' H.
    destruct (main_loop_emits single_worker rounds train_df valid_x valid_y
                args Hother ltac:(intros; apply Hgen) _ _ _ H)
      as (new & (Ht & _) & HF).
    eauto.
  - intros r st' H.
    destruct (fit_emits single_worker train_df valid_x valid_y
                args Hother ltac:(intros; apply Hgen) _ _ _ H)
      as (new & (Ht & _) & HF).
    exists new. split; [done |]. split; [done |].
    intros loss_hist ->.
    destruct (fit_returns _ _ _ _ _ _ _ H)
      as (km & g & s & cbs & h & before & -> & Hlast & [earlier ->]).
    exists km, g, s, cbs, h, earlier. split; [done |].
    rewrite Ht, <- app_assoc in Hlast. by apply app_inv_head in Hlast.
Qed.

(** *** Output files *)

(** C6.  Of the callbacks [get_callbacks] builds for a model, exactly two
    write a file: the checkpoint, given [WEIGHT_PATH], monitoring
    ['val_loss'] in ['min'] mode with [save_best_only] and
    [save_weights_only] set, and the CSV logger, given
    [FIT_HISTORY_PATH], [append=False] and [';'] as separator.  In every
    run of the retry loop, the only calls through which a file is written
    are calls of [fit_generator], and each is given exactly the callbacks
    of [get_callbacks] for a model of the registry. *)
Theorem outputs_are_checkpoint_and_csv_log :
  (forall seg_model,
      List.filter (fun c => bool_decide (is_Some (output_file c)))
        (get_callbacks seg_model) =
      [ModelCheckpoint (WEIGHT_PATH seg_model) "val_loss" 1 true "min" true;
       CSVLogger (FIT_HISTORY_PATH seg_model) false ";"] /\
      omap output_file (get_callbacks seg_model) =
      [WEIGHT_PATH seg_model; FIT_HISTORY_PATH seg_model]) /\
  (forall rounds train_df valid_x valid_y args st,
      exists new,
        trace (main_loop rounds train_df valid_x valid_y args st).2 =
          trace st ++ new /\
        Forall writes_through_callbacks new).
Proof.
  split; [intros seg_model; split; reflexivity |].
  intros rounds train_df valid_x valid_y args st.
  destruct (emits_run writes_through_callbacks
              (main_loop rounds train_df valid_x valid_y args) st)
    as (new & Ht & _ & HF); [| eauto].
  apply main_loop_emits.
  - intros c r Hc. unfold writes_through_callbacks.
    destruct c; simpl in *; congruence.
  - intros name seg_model. intros. unfold writes_through_callbacks. simpl.
    eauto.
Qed.

(** *** The argument dictionary *)

(** C7.  [load_data], [fit] and the retry loop, for any number of rounds,
    leave every dictionary of the store as it was, the argument
    dictionary among them: no key is added, removed or given another
    value, whatever the frameworks answer.  So after the whole script the
    dictionary made from the parsed command line still holds what the
    parser put there. *)
Theorem args_unchanged args st :
  heap (load_data args st).2 = heap st /\
  (forall train_df valid_x valid_y,
      heap (fit train_df valid_x valid_y args st).2 = heap st) /\
  (forall rounds train_df valid_x valid_y,
      heap (main_loop rounds train_df valid_x valid_y args st).2 = heap st) /\
  (forall namespace rounds,
      heap (main namespace rounds st).2 (next_loc st) = namespace).
Proof.
  split; [| split; [| split]]; intros.
  - destruct (emits_run any_event (load_data args) st) as (? & _ & Hh & _);
      [apply load_data_emits; intros; exact I | exact Hh].
  - destruct (emits_run any_event (fit train_df valid_x valid_y args) st)
      as (? & _ & Hh & _);
      [apply fit_emits; intros; exact I | exact Hh].
  - destruct (emits_run any_event
                (main_loop rounds train_df valid_x valid_y args) st)
      as (? & _ & Hh & _);
      [apply main_loop_emits; intros; exact I | exact Hh].
  - unfold main. unfold bind at 1, new_dict.
    match goal with
    | |- heap (?m ?s).2 _ = _ =>
        destruct (emits_run any_event m s) as (? & _ & Hh & _)
    end.
    { apply emits_bind; [apply load_data_emits; intros; exact I |].
      intros [[train_df valid_x] valid_y] ? ? _.
      apply main_loop_emits; intros; exact I. }
    rewrite Hh. simpl. by rewrite decide_True.
Qed.

(** *** Steps per epoch *)

(** C10.  In every run of [fit], the [steps_per_epoch] handed to
    [fit_generator] is [min(MAX_TRAIN_STEPS, rows // BATCH_SIZE)] for the
    row count of [train_df]; it never exceeds [MAX_TRAIN_STEPS]; and it is
    0 when the frame has fewer rows than [BATCH_SIZE] (a row count is not
    negative, and neither is the configured maximum).  The call is made:
    a run of [fit] that returns has ended with the call of
    [fit_generator], [train_df] was a data frame, and the step count of
    that call is this minimum. *)
Theorem step_count_is_min train_df valid_x valid_y args st r st' :
  fit train_df valid_x valid_y args st = (r, st') ->
  exists new,
    trace st' = trace st ++ new /\
    Forall (steps_as_expected train_df) new /\
    forall loss_hist,
      r = Ret loss_hist ->
      exists h rows keras_model aug_gen callbacks history earlier,
        train_df = VFrame h rows /\
        BATCH_SIZE <> 0 /\
        new = earlier ++
          [Event (fit_generator keras_model aug_gen
                    (Z.min MAX_TRAIN_STEPS (rows `div` BATCH_SIZE))
                    MAX_TRAIN_EPOCHS (valid_x, valid_y) callbacks 1 1)
             (Ret history)] /\
        (Z.min MAX_TRAIN_STEPS (rows `div` BATCH_SIZE) <= MAX_TRAIN_STEPS) /\
        (0 <= MAX_TRAIN_STEPS -> 0 <= rows < BATCH_SIZE ->
         Z.min MAX_TRAIN_STEPS (rows `div` BATCH_SIZE) = 0) /\
        loss_hist = [history].
Proof.
  intros H.
  destruct (fit_emits (steps_as_expected train_df) train_df valid_x valid_y
              args) with (st := st) (r := r) (st' := st')
    as (new & (Ht & _) & HF); [| | done |].
  - intros c r0 Hc. unfold steps_as_expected. intros. simpl in *. subst c.
    discriminate.
  - intros name seg_model km g h rows r0 _ -> Hb.
    unfold steps_as_expected. simpl. intros ? ? ? ? ? ? ? ? Heq.
    inversion Heq; subst. exists h, rows.
    unfold expected_step_count.
    repeat split; [done | lia |].
    intros HM [Hr0 Hr1]. rewrite Z.div_small by lia. lia.
  - exists new. split; [exact Ht |]. split; [exact HF |].
    intros loss_hist ->.
    apply fit_returns in H
      as (km & g & steps & cbs & history & before & -> & Hlast & [k Hk]).
    assert (Hnew : new =
      k ++ [Event (fit_generator km g steps MAX_TRAIN_EPOCHS
                     (valid_x, valid_y) cbs 1 1) (Ret history)]).
    { rewrite Hlast, Hk, <- app_assoc in Ht. by apply app_inv_head in Ht. }
    rewrite Hnew in HF. apply Forall_app in HF as [_ HF].
    apply Forall_inv in HF.
    destruct (HF _ _ _ _ _ _ _ _ eq_refl)
      as (h & rows & -> & Hb & -> & Hle & Hzero).
    unfold expected_step_count in *.
    exists h, rows, km, g, cbs, history, k. done.
Qed.

(** *** An unknown model name *)

(** C9.  When [args['model_name']] is not a key of the registry, [fit]
    raises [AttributeError] at the method it looks up on [None]
    ([get_classifier_model] or [get_model], by [classify_mode]); the
    exception is the result of [fit], and the state is untouched: no call
    has been made, so no data was read and no file written. *)
Theorem unknown_model_name_raises
    train_df valid_x valid_y args st model_name classify :
  heap st args !! "model_name" = Some model_name ->
  dict_get AVAILABLE_MODELS model_name = None ->
  heap st args !! "classify_mode" = Some classify ->
  fit train_df valid_x valid_y args st =
    (Raise (Exn AttributeError
              (if truthy classify then "get_classifier_model"
               else "get_model")), st).
Proof.
  intros Hname Hnone Hclassify.
  unfold fit, bind, getitem. rewrite Hname, Hclassify, Hnone.
  destruct (truthy classify); reflexivity.
Qed.

(** *** Loading the data *)

Lemma extern_run c st r st' :
  extern c st = (r, st') <->
  env (trace st) c = r /\
  st' = State (trace st ++ [Event c r]) (heap st) (next_loc st).
Proof.
  unfold extern. split.
  - intros H. inversion H; subst. done.
  - intros [<- ->]. done.
Qed.

Lemma if_extern (b : bool) c1 c2 :
  (if b then extern c1 else extern c2) = extern (if b then c1 else c2).
Proof. by destruct b. Qed.

Lemma bind_ret {A B} (m : M A) (k : A -> M B) st a st1 :
  m st = (Ret a, st1) -> bind m k st = k a st1.
Proof. unfold bind. by intros ->. Qed.

Lemma getitem_ret d key st v :
  heap st d !! key = Some v -> getitem d key st = (Ret v, st).
Proof. unfold getitem. by intros ->. Qed.

Lemma unpack2_inv v st a b st1 :
  unpack2 v st = (Ret (a, b), st1) -> v = VTuple [a; b] /\ st1 = st.
Proof.
  destruct v as [| [| ? [| ? [| ? ?]]] | | |]; inversion 1; subst; done.
Qed.

(** Without a ['classify_mode'] entry, [load_data] loads the data set,
    computes the image ids and then raises [KeyError]. *)
Lemma load_data_without_classify_mode args st df unique_img_ids :
  heap st args !! "classify_mode" = None ->
  env (trace st) load_dataset = Ret df ->
  env (trace st ++ [Event load_dataset (Ret df)]) (get_unique_img_ids df)
    = Ret unique_img_ids ->
  load_data args st =
    (Raise (Exn KeyError "classify_mode"),
     State (trace st ++ [Event load_dataset (Ret df);
                         Event (get_unique_img_ids df) (Ret unique_img_ids)])
       (heap st) (next_loc st)).
Proof.
  intros Hkey E1 E2. unfold load_data.
  erewrite bind_ret by (apply extern_run; split; [exact E1 | done]).
  erewrite bind_ret by (apply extern_run; split; [exact E2 | done]).
  unfold bind, getitem. simpl. rewrite Hkey, <- app_assoc. reflexivity.
Qed.

(** C4.  With [classify_mode] in the dictionary, [load_data] returns
    [(train_df, valid_x, valid_y)] exactly when the frameworks answer this
    sequence of calls: [load_dataset], [get_unique_img_ids] on its
    result, then [get_balanced_dataset] when [classify_mode] is true and
    [drop_empty_images] when it is false, then [get_train_val_datasets]
    and [split_validation_dataset]; these are then all the calls it
    made. *)
Theorem load_data_branches_on_classify_mode
    args st classify train_df valid_x valid_y st' :
  heap st args !! "classify_mode" = Some classify ->
  load_data args st = (Ret (train_df, valid_x, valid_y), st') <->
  exists df unique_img_ids balanced_dataset valid_df,
    let evs := load_data_events classify df unique_img_ids balanced_dataset
                 train_df valid_df valid_x valid_y in
    answered (trace st) evs /\
    st' = State (trace st ++ evs) (heap st) (next_loc st).
Proof.
  intros Hclassify. split.
  - unfold load_data. intros H.
    apply bind_inv in H as [(df & s1 & H1 & H) | (? & ? & ?)]; [| done].
    apply extern_run in H1 as [E1 ->].
    apply bind_inv in H as [(ids & s2 & H2 & H) | (? & ? & ?)]; [| done].
    apply extern_run in H2 as [E2 ->].
    apply bind_inv in H as [(c & s3 & H3 & H) | (? & ? & ?)]; [| done].
    apply getitem_inv in H3 as [-> H3]. simpl in H3.
    rewrite Hclassify in H3. injection H3 as <-.
    apply bind_inv in H as [(bal & s4 & H4 & H) | (? & ? & ?)]; [| done].
    rewrite if_extern in H4. apply extern_run in H4 as [E4 ->].
    apply bind_inv in H as [(p & s5 & H5 & H) | (? & ? & ?)]; [| done].
    apply extern_run in H5 as [E5 ->].
    apply bind_inv in H as [([tdf vdf] & s6 & H6 & H) | (? & ? & ?)];
      [| done].
    apply unpack2_inv in H6 as [-> ->].
    apply bind_inv in H as [(c' & s7 & H7 & H) | (? & ? & ?)]; [| done].
    apply getitem_inv in H7 as [-> H7]. simpl in H7.
    rewrite Hclassify in H7. injection H7 as <-.
    apply bind_inv in H as [(q & s8 & H8 & H) | (? & ? & ?)]; [| done].
    apply extern_run in H8 as [E8 ->].
    apply bind_inv in H as [([vx vy] & s9 & H9 & H) | (? & ? & ?)];
      [| done].
    apply unpack2_inv in H9 as [-> ->].
    apply ret_inv in H as [H ->]. injection H as -> -> ->.
    simpl in *.
    exists df, ids, bal, vdf. simpl.
    split; [by repeat split |].
    rewrite <- !app_assoc. reflexivity.
  - intros (df & ids & bal & vdf & Hans & ->).
    simpl in Hans. destruct Hans as (E1 & E2 & E3 & E4 & E5 & _).
    unfold load_data.
    erewrite bind_ret by (apply extern_run; split; [exact E1 | done]).
    erewrite bind_ret by (apply extern_run; split; [exact E2 | done]).
    erewrite bind_ret by (by apply getitem_ret).
    rewrite if_extern.
    erewrite bind_ret by (apply extern_run; split; [exact E3 | done]).
    erewrite bind_ret by (apply extern_run; split; [exact E4 | done]).
    erewrite bind_ret by reflexivity. cbv beta iota.
    erewrite bind_ret by (by apply getitem_ret).
    erewrite bind_ret by (apply extern_run; split; [exact E5 | done]).
    erewrite bind_ret by reflexivity. cbv beta iota.
    unfold ret, load_data_events. simpl. rewrite <- !app_assoc. reflexivity.
Qed.

(** *** The order of floats and [np.min] *)

Lemma SFltb_key x y :
  x <> S754_nan -> y <> S754_nan ->
  (SFltb x y = true <-> key_lt (order_key x) (order_key y)).
Proof.
  intros Hx Hy. unfold SFltb, SFcompare.
  destruct x as [sx | sx | | sx mx ex], y as [sy | sy | | sy my ey];
    try congruence;
    try destruct sx; try destruct sy; simpl;
    try (split; [discriminate | lia]);
    try (split; [lia | reflexivity]).
  all: change (Pos.compare_cont Eq ?a ?b) with (Pos.compare a b).
  all: destruct (Z.compare_spec ex ey);
    try destruct (Pos.compare_spec mx my); simpl;
    split; try discriminate; try reflexivity; try lia.
Qed.

Lemma key_lt_trans a b c : key_lt a b -> key_lt b c -> key_lt a c.
Proof.
  destruct a as [[a1 a2] a3], b as [[b1 b2] b3], c as [[c1 c2] c3].
  unfold key_lt. lia.
Qed.

Lemma key_lt_total a b c : ~ key_lt b a -> key_lt b c -> key_lt a c.
Proof.
  destruct a as [[a1 a2] a3], b as [[b1 b2] b3], c as [[c1 c2] c3].
  unfold key_lt. lia.
Qed.

Lemma is_nan_spec x : is_nan x = true <-> Prim2SF x = S754_nan.
Proof.
  unfold is_nan. rewrite FloatAxioms.eqb_spec. unfold SFeqb, SFcompare.
  destruct (Prim2SF x) as [s | s | | s m e]; simpl.
  - split; discriminate.
  - destruct s; split; discriminate.
  - split; reflexivity.
  - rewrite Z.compare_refl.
    change (Pos.compare_cont Eq m m) with (Pos.compare m m).
    rewrite Pos.compare_refl. destruct s; split; discriminate.
Qed.

Lemma is_nan_false x : is_nan x = false <-> Prim2SF x <> S754_nan.
Proof.
  pose proof (is_nan_spec x) as [H1 H2].
  destruct (is_nan x); split.
  - discriminate.
  - intros H. exfalso. apply H. by apply H1.
  - intros _ Hn. apply H2 in Hn. discriminate.
  - reflexivity.
Qed.

Lemma ltb_key a b :
  is_nan a = false -> is_nan b = false ->
  ((a <? b)%float = true <-> key_lt (float_key a) (float_key b)).
Proof.
  intros Ha Hb. rewrite FloatAxioms.ltb_spec.
  apply SFltb_key; by apply is_nan_false.
Qed.

Lemma ltb_nan_l a b : is_nan a = true -> (a <? b)%float = false.
Proof.
  intros Ha. apply is_nan_spec in Ha. rewrite FloatAxioms.ltb_spec, Ha. reflexivity.
Qed.

Lemma np_minimum_nan a b :
  is_nan a = true \/ is_nan b = true -> is_nan (np_minimum a b) = true.
Proof.
  unfold np_minimum. intros [H | H].
  - by rewrite H.
  - destruct (is_nan a) eqn:Ha; [done |]. by rewrite H.
Qed.

Lemma np_minimum_below t a b :
  is_nan t = false -> is_nan a = false -> is_nan b = false ->
  is_nan (np_minimum a b) = false /\
  ((np_minimum a b <? t)%float = true <->
   (a <? t)%float = true \/ (b <? t)%float = true).
Proof.
  intros Ht Ha Hb. unfold np_minimum. rewrite Ha, Hb.
  destruct (b <? a)%float eqn:Hba.
  - split; [done |]. split; [by right |].
    intros [H | H]; [| done].
    apply ltb_key in Hba; [| done..]. apply ltb_key in H; [| done..].
    apply ltb_key; [done.. |]. by eapply key_lt_trans.
  - split; [done |]. split; [by left |].
    intros [H | H]; [done |].
    assert (Hn : ~ key_lt (float_key b) (float_key a)).
    { intros Hk. apply ltb_key in Hk; [| done..]. congruence. }
    apply ltb_key in H; [| done..].
    apply ltb_key; [done.. |]. by eapply key_lt_total.
Qed.

Lemma foldl_np_minimum_nan x xs :
  Exists (fun v => is_nan v = true) (x :: xs) ->
  is_nan (foldl np_minimum x xs) = true.
Proof.
  revert x. induction xs as [| y ys IH]; intros x H; simpl.
  - apply Exists_cons in H as [H | H]; [done | by apply Exists_nil in H].
  - apply IH. apply Exists_cons in H as [H | H].
    + left. apply np_minimum_nan. by left.
    + apply Exists_cons in H as [H | H].
      * left. apply np_minimum_nan. by right.
      * by right.
Qed.

Lemma foldl_np_minimum_below t x xs :
  is_nan t = false ->
  Forall (fun v => is_nan v = false) (x :: xs) ->
  is_nan (foldl np_minimum x xs) = false /\
  ((foldl np_minimum x xs <? t)%float = true <->
   Exists (fun v => (v <? t)%float = true) (x :: xs)).
Proof.
  intros Ht. revert x. induction xs as [| y ys IH]; intros x H; simpl.
  - apply Forall_cons in H as [Hx _]. split; [done |].
    rewrite Exists_cons, Exists_nil. tauto.
  - apply Forall_cons in H as [Hx H]. apply Forall_cons in H as [Hy H].
    destruct (np_minimum_below t x y Ht Hx Hy) as [Hn Hlt].
    destruct (IH (np_minimum x y)) as [Hn' Hlt'].
    { by apply Forall_cons. }
    split; [done |].
    rewrite Hlt', !Exists_cons, Hlt. tauto.
Qed.

(** The test of line 110 succeeds exactly when no recorded value is a
    NaN and one of them is below the threshold. *)
Lemma np_min_below_iff t x xs :
  is_nan t = false ->
  (foldl np_minimum x xs <? t)%float = true <->
  Forall (fun v => is_nan v = false) (x :: xs) /\
  Exists (fun v => (v <? t)%float = true) (x :: xs).
Proof.
  intros Ht. split.
  - intros H.
    assert (HF : Forall (fun v => is_nan v = false) (x :: xs)).
    { apply Forall_forall. intros v Hv.
      destruct (is_nan v) eqn:Hnan; [| done].
      assert (Hex : Exists (fun v => is_nan v = true) (x :: xs))
        by (apply Exists_exists; eauto).
      apply foldl_np_minimum_nan in Hex.
      rewrite (ltb_nan_l _ t Hex) in H. discriminate. }
    split; [done |]. by apply foldl_np_minimum_below.
  - intros [HF HE]. by apply foldl_np_minimum_below.
Qed.

(** *** The retry loop *)

Lemma below_threshold_history history x xs st :
  history !! "val_loss" = Some (x :: xs) ->
  below_threshold [VHistory history] st =
    (Ret (PrimFloat.ltb (foldl np_minimum x xs) 0.2%float), st).
Proof.
  intros Hval. unfold below_threshold, bind. simpl.
  unfold bind. simpl. rewrite Hval. simpl. rewrite app_nil_r. reflexivity.
Qed.

(** A history without a recorded value stops the script: [np.min]
    raises [ValueError]. *)
Lemma below_threshold_empty history st :
  history !! "val_loss" = Some [] ->
  below_threshold [VHistory history] st =
    (Raise (Exn ValueError
       "zero-size array to reduction operation minimum which has no identity"),
     st).
Proof.
  intros Hval. unfold below_threshold, bind. simpl.
  unfold bind. simpl. rewrite Hval. reflexivity.
Qed.

(** A run of the loop that ends by [break] has trained at least once, so
    it has made calls. *)
Lemma main_loop_broke_grows rounds train_df valid_x valid_y args st st' :
  main_loop rounds train_df valid_x valid_y args st = (Ret Broke, st') ->
  (length (trace st) < length (trace st'))%nat.
Proof.
  destruct rounds as [| rounds]; simpl; [inversion 1 |].
  intros H.
  apply bind_inv in H as [(lh & s1 & Hfit & H) | (? & ? & ?)]; [| done].
  apply fit_returns in Hfit
    as (? & ? & ? & ? & ? & before & _ & Hlast & [k Hk]).
  assert (P : trace s1 `prefix_of` trace st').
  { eapply emits_prefix; [| exact H].
    apply emits_bind; [apply emits_extern; intros; exact I | intros].
    apply emits_bind; [apply below_threshold_emits | intros [] ? ? _].
    - apply emits_ret.
    - apply main_loop_emits; intros; exact I. }
  destruct P as [k' ->]. rewrite Hlast, Hk. rewrite !length_app. simpl. lia.
Qed.

(** A round of the loop begins with a whole run of [fit] on the loop's
    own arguments. *)
Lemma main_loop_starts_with_fit rounds train_df valid_x valid_y args st :
  trace (fit train_df valid_x valid_y args st).2 `prefix_of`
  trace (main_loop (S rounds) train_df valid_x valid_y args st).2.
Proof.
  simpl. unfold bind at 1.
  destruct (fit train_df valid_x valid_y args st) as [[lh | e] s1]; [| done].
  simpl.
  match goal with
  | |- _ `prefix_of` trace (?m ?s).2 =>
      destruct (m s) as [r s2] eqn:H; simpl
  end.
  eapply emits_prefix; [| exact H].
  apply emits_bind; [apply emits_extern; intros; exact I | intros].
  apply emits_bind; [apply below_threshold_emits | intros [] ? ? _].
  - apply emits_ret.
  - apply main_loop_emits; intros; exact I.
Qed.

(** C2.  After a call of [fit] that returned the history of a training
    run, and the garbage collection that follows it, the loop ends there
    exactly when the minimum of the recorded ['val_loss'] values is
    strictly below 0.2; when it is not, the loop goes round again with
    the same [train_df], [valid_x], [valid_y] and [args], and the next
    round begins with a run of [fit] on them.  The minimum is below 0.2
    exactly when no recorded value is a NaN and one of them is below
    0.2. *)
Theorem loop_exits_iff_val_loss_below_threshold
    rounds train_df valid_x valid_y args st history st1 collected st2 x xs :
  fit train_df valid_x valid_y args st = (Ret [VHistory history], st1) ->
  extern gc_collect st1 = (Ret collected, st2) ->
  history !! "val_loss" = Some (x :: xs) ->
  (main_loop (S rounds) train_df valid_x valid_y args st = (Ret Broke, st2)
   <-> PrimFloat.ltb (foldl np_minimum x xs) 0.2%float = true) /\
  (PrimFloat.ltb (foldl np_minimum x xs) 0.2%float = false ->
   main_loop (S rounds) train_df valid_x valid_y args st =
   main_loop rounds train_df valid_x valid_y args st2 /\
   forall rounds', rounds = S rounds' ->
     trace (fit train_df valid_x valid_y args st2).2 `prefix_of`
     trace (main_loop rounds train_df valid_x valid_y args st2).2) /\
  (PrimFloat.ltb (foldl np_minimum x xs) 0.2%float = true <->
   Forall (fun v => PrimFloat.is_nan v = false) (x :: xs) /\
   Exists (fun v => PrimFloat.ltb v 0.2%float = true) (x :: xs)).
Proof.
  intros Hfit Hgc Hval.
  assert (Hstep :
    main_loop (S rounds) train_df valid_x valid_y args st =
    if PrimFloat.ltb (foldl np_minimum x xs) 0.2%float
    then (Ret Broke, st2)
    else main_loop rounds train_df valid_x valid_y args st2).
  { simpl. erewrite bind_ret by exact Hfit.
    erewrite bind_ret by exact Hgc.
    erewrite bind_ret by (by apply below_threshold_history).
    by destruct (PrimFloat.ltb _ _). }
  split; [| split; [| by apply np_min_below_iff]].
  - rewrite Hstep.
    destruct (PrimFloat.ltb (foldl np_minimum x xs) 0.2%float); [done |].
    split; [| done]. intros Hbroke.
    apply main_loop_broke_grows in Hbroke. lia.
  - intros Hlt. rewrite Hstep, Hlt. split; [done |].
    intros rounds' ->. apply main_loop_starts_with_fit.
Qed.

(** *** Exceptions *)




Lemma raised_None_Ret {A} (a : A) : raised (Ret a) = None.
Proof. reflexivity. Qed.











(** *** The registry *)

Lemma registry_fold (l : list model_object) (d : gmap string model_object)
    name seg_model :
  foldl (fun d model => <[MODEL_NAME model := model]> d) d l !! name
    = Some seg_model ->
  d !! name = Some seg_model \/
  (seg_model ∈ l /\ MODEL_NAME seg_model = name).
Proof.
  revert d. induction l as [| model l IH]; intros d; simpl; [by left |].
  intros H. apply IH in H as [H | [Hin Hname]].
  - destruct (decide (MODEL_NAME model = name)) as [<- | Hne].
    + rewrite lookup_insert_eq in H. injection H as <-.
      right. split; [apply list_elem_of_here | done].
    + rewrite lookup_insert_ne in H by done. by left.
  - right. split; [by apply list_elem_of_further | done].
Qed.

(** The registry keeps, under a name, one of the seven model objects,
    and that object's [MODEL_NAME] is the name. *)
Lemma AVAILABLE_MODELS_lookup name seg_model :
  AVAILABLE_MODELS !! name = Some seg_model ->
  seg_model ∈ [UNet2; UNet; TernausNetV1; TernausNetV2;
               VGG19UNetV1; VGG19UNetV2; ResNet50UnetV1] /\
  MODEL_NAME seg_model = name.
Proof.
  unfold AVAILABLE_MODELS. intros H.
  apply registry_fold in H as [H | H]; [| done].
  by rewrite lookup_empty in H.
Qed.

(** *** The registry, in full *)

Lemma registry_fold_last (l : list model_object)
    (d : gmap string model_object) name :
  foldl (fun d model => <[MODEL_NAME model := model]> d) d l !! name =
  match last (filter (fun model => MODEL_NAME model = name) l) with
  | Some model => Some model
  | None => d !! name
  end.
Proof.
  revert d. induction l as [| model l IH]; intros d; simpl; [done |].
  rewrite IH. rewrite filter_cons.
  destruct (decide (MODEL_NAME model = name)) as [Heq | Hne].
  - rewrite last_cons.
    destruct (last (filter _ l)); [done |].
    by rewrite <- Heq, lookup_insert_eq.
  - destruct (last (filter _ l)); [done |].
    by rewrite lookup_insert_ne.
Qed.

(** Under a name the registry holds the last of the seven model objects
    that bears it; a model built earlier under the same name is replaced
    without notice, and a name that no model bears is absent. *)
Theorem registry_keeps_last_model_of_a_name name :
  AVAILABLE_MODELS !! name =
  last (filter (fun model => MODEL_NAME model = name)
          [UNet2; UNet; TernausNetV1; TernausNetV2;
           VGG19UNetV1; VGG19UNetV2; ResNet50UnetV1]).
Proof.
  unfold AVAILABLE_MODELS. rewrite registry_fold_last.
  destruct (last _); [done | apply lookup_empty].
Qed.

(** *** Runs of [fit], case by case *)

Lemma getattr_run {V} (o : option V) name st r st' :
  getattr o name st = (r, st') ->
  st' = st /\
  match o with
  | Some m => r = Ret m
  | None => r = Raise (Exn AttributeError name)
  end.
Proof. destruct o; inversion 1; subst; done. Qed.

Lemma shape0_run df st r st' :
  shape0 df st = (r, st') ->
  st' = st /\
  match df with
  | VFrame _ rows => r = Ret rows
  | _ => r = Raise (Exn AttributeError "shape")
  end.
Proof. destruct df; inversion 1; subst; done. Qed.

Lemma floordiv_run a b st r st' :
  floordiv a b st = (r, st') ->
  st' = st /\
  (b = 0 /\ r = Raise (Exn ZeroDivisionError
                         "integer division or modulo by zero") \/
   b <> 0 /\ r = Ret (a `div` b)).
Proof.
  unfold floordiv. destruct (Z.eqb_spec b 0); inversion 1; subst; auto.
Qed.

Lemma namespace_keys_elem key :
  key ∈ namespace_keys <->
  key = "model_name" \/ key = "learning_rate" \/ key = "train_only_top" \/
  key = "classify_mode" \/ key = "load_weights".
Proof. unfold namespace_keys. set_solver. Qed.

(** Takes apart every hypothesis that describes a run, down to the
    answers of the environment. *)
Ltac run_inv :=
  repeat
    (cbn [trace heap next_loc] in *;
     match goal with
     | H : bind _ _ _ = _ |- _ =>
         apply bind_inv in H as [(? & ? & ? & H) | (? & H & ?)]; simplify_eq
     | H : extern _ _ = _ |- _ => apply extern_run in H as [? ->]
     | H : getitem ?d ?k ?s = _ |- _ =>
         apply getitem_inv in H as [-> H];
         destruct (heap s d !! k) eqn:?; simplify_eq
     | H : getattr ?o _ _ = _ |- _ =>
         apply getattr_run in H as [-> H]; destruct o eqn:?; simplify_eq
     | H : shape0 ?v _ = _ |- _ =>
         apply shape0_run in H as [-> H]; destruct v; simplify_eq
     | H : floordiv _ _ _ = _ |- _ =>
         apply floordiv_run in H as [-> [[? H] | [? H]]]; simplify_eq
     | H : unpack2 ?v _ = _ |- _ =>
         destruct v as [| [| ? [| ? [| ? ?]]] | | |];
         cbn [unpack2] in H; unfold ret, raise in H; simplify_eq
     | H : ret _ _ = _ |- _ => unfold ret in H; simplify_eq
     | H : load_weight_if_possible _ _ _ = _ |- _ =>
         unfold load_weight_if_possible, try_except in H
     | H : (if ?b then _ else _) _ = _ |- _ => destruct b eqn:?
     | H : (if ?b then _ else _) = _ |- _ => destruct b eqn:?
     | H : (let '(_, _) := ?p in _) _ = _ |- _ => destruct p
     | H : match ?m ?s with _ => _ end = _ |- _ =>
         destruct (m s) as [[? | ?] ?] eqn:?
     | H : (_, _) = (_, _) |- _ => simplify_eq
     end).

(** Turns a statement about every event of an explicit list into one
    statement for each event. *)
Ltac each_event :=
  repeat match goal with |- Forall _ _ => constructor end.

(** Names the new part of the trace once the final state is explicit. *)
Ltac name_new :=
  cbn [trace heap next_loc fst snd]; rewrite <- ?app_assoc;
  first
    [ exists []; split; [symmetry; apply app_nil_r |]
    | eexists; split; [reflexivity |] ];
  cbn [app].

Ltac name_extends :=
  unfold extends; cbn [trace heap next_loc fst snd]; rewrite <- ?app_assoc;
  first
    [ exists []; split; [split; [symmetry; apply app_nil_r | done] |]
    | eexists; split; [split; [reflexivity | done] |] ];
  cbn [app].

Ltac solve_built_once :=
  unfold built_once;
  first
    [ exact I
    | eexists; split; [reflexivity |]; split; [| by left];
      each_event; unfold follows_build; cbn [ev_call ev_resp]; eauto ].

Ltac solve_ready :=
  each_event; unfold trains_when_ready; cbn [ev_call is_fit_generator];
  try discriminate;
  intros _; unfold ready_to_train;
  (split;
    [ intros key Hkey; apply namespace_keys_elem in Hkey;
      destruct Hkey as [-> | [-> | [-> | [-> | ->]]]]; eexists; eassumption
    | split;
        [ match goal with
          | Hd : dict_get _ ?name = Some _ |- _ =>
              destruct name; try discriminate Hd; simpl in Hd; eauto
          end
        | split; [eauto | done] ] ]).

Ltac solve_outcome :=
  cbn [fit_outcome last];
  first
    [ left; eexists; reflexivity
    | eexists _, _; split; [reflexivity | done]
    | right; unfold own_failure;
      first
        [ left; eexists; split; [| split; [eassumption | reflexivity]];
          apply namespace_keys_elem; tauto
        | right; left; eexists _, _;
          split; [eassumption |]; split; [eassumption |];
          split; [eassumption |];
          match goal with
          | Hb : truthy _ = _ |- _ => rewrite Hb
          end; reflexivity
        | right; right; left; split; [intros ? ? [=] | reflexivity]
        | right; right; right; done ] ].

(** Every run of [fit], taken apart once: what its calls are given,
    how they follow one another and how the run ends. *)
Lemma fit_run train_df valid_x valid_y args st r st' :
  fit train_df valid_x valid_y args st = (r, st') ->
  exists new,
    extends st st' new /\
    Forall (wired (heap st args)) new /\
    built_once new /\
    chained handed_on new /\
    Forall (trains_when_ready train_df (heap st args)) new /\
    fit_outcome train_df (heap st args) new r /\
    Forall (trains_on train_df valid_x valid_y) new /\
    match r with
    | Ret loss_hist =>
        omap training_answer new = loss_hist /\
        exists history, loss_hist = [history]
    | Raise _ => omap training_answer new = []
    end.
Proof.
  unfold fit. intros H. run_inv; name_extends.
  all: split; [each_event; unfold wired; cbn [ev_call]; eauto 10 |].
  all: split; [solve_built_once |].
  all: split; [cbn [chained]; unfold handed_on; cbn [ev_call ev_resp];
               repeat split; reflexivity |].
  all: split; [solve_ready |].
  all: split; [solve_outcome |].
  all: split;
    [each_event; unfold trains_on; cbn [ev_call is_data_call]; done |].
  all: first [reflexivity | split; [reflexivity | eexists; reflexivity]].
Qed.

(** The values that [fit] hands to the frameworks are those of the
    dictionary: the model is the one registered under ['model_name'],
    built by [get_classifier_model] when ['classify_mode'] is true and
    by [get_model] when it is not, with ['train_only_top'] as given; the
    optimizer gets ['learning_rate'] and a decay of 1e-6; the generators
    get ['classify_mode']; and [load_weights] is called only when
    ['load_weights'] is true. *)
Theorem fit_hands_over_the_arguments train_df valid_x valid_y args st :
  exists new,
    trace (fit train_df valid_x valid_y args st).2 = trace st ++ new /\
    Forall (wired (heap st args)) new.
Proof.
  destruct (fit train_df valid_x valid_y args st) as [r st'] eqn:H.
  apply fit_run in H as (new & (Ht & _) & Hwired & _). eauto.
Qed.

(** In a run of [fit] the first call builds the Keras model, by a method
    of one model object, and no later call builds another; [summary],
    [load_weights], [compile] and [fit_generator] are all given the model
    that first call returned; [load_weights] reads the weights file of
    that model object, which is the file that the checkpoint callback
    given to [fit_generator] writes. *)
Theorem fit_trains_the_model_it_built train_df valid_x valid_y args st :
  exists new,
    trace (fit train_df valid_x valid_y args st).2 = trace st ++ new /\
    built_once new.
Proof.
  destruct (fit train_df valid_x valid_y args st) as [r st'] eqn:H.
  apply fit_run in H as (new & (Ht & _) & _ & Hbuilt & _). eauto.
Qed.

(** In a run of [fit], what [summary] returns is printed by the next
    call, the optimizer that [Adam] returns is compiled into the model by
    the next call, the generator of [make_image_gen] goes into
    [create_aug_gen] and the generator of that into [fit_generator]: each
    of these four calls, unless it ends the run, is followed at once by
    the call that uses its answer. *)
Theorem fit_passes_each_answer_to_the_next_call
    train_df valid_x valid_y args st :
  exists new,
    trace (fit train_df valid_x valid_y args st).2 = trace st ++ new /\
    chained handed_on new.
Proof.
  destruct (fit train_df valid_x valid_y args st) as [r st'] eqn:H.
  apply fit_run in H as (new & (Ht & _) & _ & _ & Hchained & _). eauto.
Qed.

(** [fit] calls [fit_generator] only once it has read all five keys of
    the dictionary, found the model name in the registry, taken the row
    count of a data frame and divided it by a batch size that is not
    zero. *)
Theorem fit_trains_only_when_ready train_df valid_x valid_y args st :
  exists new,
    trace (fit train_df valid_x valid_y args st).2 = trace st ++ new /\
    Forall (trains_when_ready train_df (heap st args)) new.
Proof.
  destruct (fit train_df valid_x valid_y args st) as [r st'] eqn:H.
  apply fit_run in H as (new & (Ht & _) & _ & _ & _ & Hready & _). eauto.
Qed.

(** Every run of [fit] ends in one of three ways: it returns the
    one-element list of what its last call, [fit_generator], returned; or
    it raises the exception that its last call raised; or it raises one
    of its own: [KeyError] for a key the dictionary lacks,
    [AttributeError] for a model name the registry lacks or for a
    [train_df] that is no data frame, [ZeroDivisionError] for a batch
    size of zero. *)
Theorem fit_ends_in_one_of_three_ways train_df valid_x valid_y args st :
  exists new,
    trace (fit train_df valid_x valid_y args st).2 = trace st ++ new /\
    fit_outcome train_df (heap st args) new
      (fit train_df valid_x valid_y args st).1.
Proof.
  destruct (fit train_df valid_x valid_y args st) as [r st'] eqn:H.
  apply fit_run in H as (new & (Ht & _) & _ & _ & _ & _ & Hout & _). eauto.
Qed.

(** With a batch size above zero, a maximum of steps that is not
    negative and a frame whose row count is not negative, the step count
    that [fit] hands to [fit_generator] is not negative, the batches of
    an epoch need no more rows than the frame has, and the maximum is
    used exactly when the frame has rows for it. *)
Theorem an_epoch_stays_within_the_frame train_df valid_x valid_y args st :
  0 < BATCH_SIZE -> 0 <= MAX_TRAIN_STEPS ->
  (forall h rows, train_df = VFrame h rows -> 0 <= rows) ->
  exists new,
    trace (fit train_df valid_x valid_y args st).2 = trace st ++ new /\
    Forall (steps_within_frame train_df) new.
Proof.
  intros Hbatch Hmax Hrows.
  destruct (fit_emits (steps_within_frame train_df) train_df valid_x valid_y
              args) with (st := st)
      (r := (fit train_df valid_x valid_y args st).1)
      (st' := (fit train_df valid_x valid_y args st).2)
    as (new & (Ht & _) & HF); [| | by destruct (fit _ _ _ _ _) | eauto].
  - intros c r0 Hc. unfold steps_within_frame. destruct c; try done.
  - intros name seg_model km g h rows r0 _ -> _.
    unfold steps_within_frame. simpl. exists h, rows.
    specialize (Hrows h rows eq_refl).
    pose proof (Z.div_pos rows BATCH_SIZE Hrows Hbatch).
    pose proof (Z.mul_div_le rows BATCH_SIZE Hbatch).
    split; [done |]. split; [lia |]. split; [nia |].
    split.
    + intros Heq. assert (MAX_TRAIN_STEPS <= rows `div` BATCH_SIZE) by lia.
      nia.
    + intros Hle.
      assert (MAX_TRAIN_STEPS <= rows `div` BATCH_SIZE)
        by (apply Z.div_le_lower_bound; lia).
      lia.
Qed.

(** *** The handler of [load_weight_if_possible] *)

(** In a run of [load_weight_if_possible] the message that no file with
    weights is available is printed exactly when a call of the [try]
    block, [load_weights] or the [print] after it, has raised an
    [OSError]. *)
Theorem missing_weights_are_reported_iff_the_try_block_raised_oserror
    seg_model keras_model st :
  exists new,
    trace (load_weight_if_possible seg_model keras_model st).2 =
      trace st ++ new /\
    (Exists reports_missing_weights new <->
     Exists oserror_in_try_block new).
Proof.
  destruct (load_weight_if_possible seg_model keras_model st)
    as [r st'] eqn:H.
  run_inv; name_new.
  all: rewrite ?Exists_cons, ?Exists_nil;
    unfold reports_missing_weights, oserror_in_try_block;
    cbn [ev_call ev_resp in_try_block];
    first
      [ naive_solver
      | split; intros Hx; repeat (destruct Hx as [Hx | Hx]);
        try done; destruct Hx as (_ & e & He & Hos);
        simplify_eq; congruence ].
Qed.

(** When [load_weights] has returned and the [print] that says so raises
    an [OSError], as it does on a closed pipe, the handler takes over:
    the run goes on to print that no file with weights is available,
    after the weights have been loaded. *)
Theorem failed_print_is_taken_for_missing_weights
    seg_model keras_model st loaded e :
  env (trace st) (load_weights keras_model (WEIGHT_PATH seg_model))
    = Ret loaded ->
  env (trace st ++
         [Event (load_weights keras_model (WEIGHT_PATH seg_model))
            (Ret loaded)])
    (print (VScalar (SStr "Weights loaded!"))) = Raise e ->
  isinstance e OSError = true ->
  load_weight_if_possible seg_model keras_model st =
    (extern (print (VScalar (SStr
       "No file with weights available! Starting from scratch...")))
     ;;; ret tt)
      (State (trace st ++
                [Event (load_weights keras_model (WEIGHT_PATH seg_model))
                   (Ret loaded);
                 Event (print (VScalar (SStr "Weights loaded!"))) (Raise e)])
         (heap st) (next_loc st)).
Proof.
  intros Hload Hprint Hos.
  unfold load_weight_if_possible, try_except.
  unfold bind at 1 2, extern at 1 2. cbn [trace heap next_loc].
  rewrite Hload. cbn [trace heap next_loc]. rewrite Hprint, Hos.
  by rewrite <- app_assoc.
Qed.

(** *** How the rounds of the loop go *)

Lemma history_val_loss_pure mh :
  exists r, forall st, history_val_loss mh st = (r, st).
Proof.
  destruct mh as [| | | | history]; simpl;
    try (eexists; intros st; reflexivity).
  destruct (history !! "val_loss"); eexists; intros st; reflexivity.
Qed.

Lemma comprehension_pure l :
  exists r, forall st, comprehension history_val_loss l st = (r, st).
Proof.
  induction l as [| mh l IH]; simpl.
  - eexists. intros st. reflexivity.
  - destruct (history_val_loss_pure mh) as [[b | e] Hb];
      [destruct IH as [[bs | e] Hbs] |];
      eexists; intros st; unfold bind; rewrite Hb, ?Hbs; reflexivity.
Qed.

(** The test of line 110 makes no call and leaves the state alone. *)
Lemma below_threshold_pure loss_history :
  exists r, forall st, below_threshold loss_history st = (r, st).
Proof.
  unfold below_threshold.
  destruct (comprehension_pure loss_history) as [[rows | e] Hrows].
  - destruct (concat rows) as [| x xs] eqn:Hconcat;
      eexists; intros st; unfold bind; rewrite Hrows;
      unfold np_min; rewrite Hconcat; reflexivity.
  - eexists. intros st. unfold bind. rewrite Hrows. reflexivity.
Qed.

Lemma loop_record_next rounds history histories r :
  tested_below history false ->
  loop_record rounds histories r ->
  loop_record (S rounds) (history :: histories) r.
Proof.
  intros Hh. destruct r as [[] | e]; simpl.
  - intros (earlier & final & -> & HF & Hfinal & Hlen).
    exists (history :: earlier), final. simpl.
    split; [done |]. split; [by constructor |]. split; [done | lia].
  - intros [HF <-]. split; [by constructor | done].
  - intros (earlier & HF & Hlen & Hhist).
    exists (history :: earlier). split; [by constructor |].
    split; [simpl; lia |].
    destruct Hhist as [-> | [final ->]]; [by left | right; by exists final].
Qed.

(** The histories that the trainings of a run of the loop returned,
    in order, tell how the run went.  If it ended by [break], the last
    history is the first whose test of line 110 gives true.  If the
    rounds ran out, there is one history for each round and none passed
    the test.  If it raised, all histories but perhaps the last were
    tested and did not pass, and fewer of them than there were rounds. *)
Theorem loop_ends_at_the_first_history_below_threshold
    rounds train_df valid_x valid_y args st :
  exists new,
    trace (main_loop rounds train_df valid_x valid_y args st).2 =
      trace st ++ new /\
    loop_record rounds (omap training_answer new)
      (main_loop rounds train_df valid_x valid_y args st).1.
Proof.
  revert st. induction rounds as [| rounds IH]; intros st.
  { exists []. simpl. rewrite app_nil_r. done. }
  destruct (main_loop (S rounds) train_df valid_x valid_y args st)
    as [r st'] eqn:H.
  cbn [main_loop] in H. cbn [fst snd].
  apply bind_inv in H as [(lh & s1 & Hfit & H) | (e & Hfit & ->)].
  2: { apply fit_run in Hfit
         as (new & (Ht & _) & _ & _ & _ & _ & _ & _ & Hnew).
       exists new. split; [done |]. rewrite Hnew. exists []. simpl.
       split; [done |]. split; [lia | by left]. }
  apply fit_run in Hfit
    as (new1 & (Ht1 & _) & _ & _ & _ & _ & _ & _ & Hnew1 & history & ->).
  assert (Hends : forall e resp,
            loop_record (S rounds)
              (omap training_answer (new1 ++ [Event gc_collect resp]))
              (Raise e)).
  { intros e resp. rewrite omap_app, Hnew1. simpl.
    exists []. split; [done |]. split; [simpl; lia |]. right. by exists history. }
  apply bind_inv in H as [(collected & s2 & Hgc & H) | (e & Hgc & ->)];
    apply extern_run in Hgc as [Hgc ->].
  2: { exists (new1 ++ [Event gc_collect (Raise e)]).
       cbn [trace]. rewrite Ht1, <- app_assoc. split; [done |].
       by apply Hends. }
  destruct (below_threshold_pure [history]) as [tested Htested].
  apply bind_inv in H as [(stop & s3 & Hstop & H) | (e & Hstop & ->)];
    rewrite Htested in Hstop; injection Hstop as -> <-.
  2: { exists (new1 ++ [Event gc_collect (Ret collected)]).
       cbn [trace]. rewrite Ht1, <- app_assoc. split; [done |].
       by apply Hends. }
  destruct stop.
  - unfold ret in H. injection H as <- <-.
    exists (new1 ++ [Event gc_collect (Ret collected)]).
    cbn [trace]. rewrite Ht1, <- app_assoc. split; [done |].
    rewrite omap_app, Hnew1. simpl.
    exists [], history. split; [done |]. split; [done |].
    split; [done | simpl; lia].
  - match type of H with
    | main_loop _ _ _ _ _ ?s = _ => destruct (IH s) as (new2 & Ht2 & Hrec)
    end.
    rewrite H in Ht2, Hrec. cbn [fst snd trace] in Ht2, Hrec.
    exists (new1 ++ Event gc_collect (Ret collected) :: new2).
    split.
    + rewrite Ht2, Ht1, <- !app_assoc. done.
    + rewrite omap_app, Hnew1. simpl. by apply loop_record_next.
Qed.

(** *** The data of the training rounds *)

Lemma fit_trains_on train_df valid_x valid_y args :
  emits (trains_on train_df valid_x valid_y)
    (fit train_df valid_x valid_y args).
Proof.
  intros st r st' H.
  apply fit_run in H as (new & Hext & _ & _ & _ & _ & _ & Hon & _). eauto.
Qed.

Lemma main_loop_trains_on rounds train_df valid_x valid_y args :
  emits (trains_on train_df valid_x valid_y)
    (main_loop rounds train_df valid_x valid_y args).
Proof.
  induction rounds as [| rounds IH]; simpl.
  - apply emits_ret.
  - apply emits_bind; [apply fit_trains_on | intros ? ? ? _].
    apply emits_bind; [by apply emits_extern | intros ? ? ? _].
    apply emits_bind; [apply below_threshold_emits | intros [] ? ? _].
    + apply emits_ret.
    + apply IH.
Qed.

(** The script loads the data once, before the first round: a run of it
    is at most five data calls, those of [load_data], followed by the
    calls of the training rounds, none of which is a data call.  Every
    round makes its generator from the training frame that [load_data]
    returned and validates on the arrays it returned, and the data were
    selected by the ['classify_mode'] of the command line. *)
Theorem main_loads_the_data_once namespace rounds st :
  exists loading training,
    trace (main namespace rounds st).2 = trace st ++ loading ++ training /\
    Forall (fun ev => is_data_call (ev_call ev) = true) loading /\
    (length loading <= 5)%nat /\
    (training = [] \/
     exists classify df unique_img_ids balanced_dataset train_df valid_df
            valid_x valid_y,
       namespace !! "classify_mode" = Some classify /\
       loading = load_data_events classify df unique_img_ids
                   balanced_dataset train_df valid_df valid_x valid_y /\
       Forall (trains_on train_df valid_x valid_y) training).
Proof.
  destruct (main namespace rounds st) as [r st'] eqn:H. cbn [fst snd].
  unfold main in H. unfold bind at 1, new_dict in H.
  remember (State (trace st) _ _) as st0 eqn:Hst0 in H.
  assert (Htr : trace st0 = trace st) by (by subst st0).
  assert (Hns : heap st0 (next_loc st) = namespace).
  { subst st0. cbn [heap]. by rewrite decide_True. }
  clear Hst0. rewrite <- Htr. clear Htr.
  apply bind_inv in H as [(data & s1 & Hload & Hloop) | (e & Hload & ->)].
  - destruct data as [[train_df valid_x] valid_y].
    apply main_loop_trains_on in Hloop as (training & (Ht & _) & HF).
    rewrite Ht. clear Ht.
    unfold load_data in Hload. run_inv.
    all: cbn [trace heap next_loc] in *; simplify_eq;
      rewrite <- ?app_assoc; cbn [app].
    all: eexists [_; _; _; _; _], training; split; [reflexivity |].
    all: split; [by each_event |]; split; [simpl; lia |].
    all: right.
    all: eexists _, _, _, _, _, _, _, _; split; [eassumption |].
    all: split; [| exact HF].
    all: unfold load_data_events;
      match goal with Hb : truthy _ = _ |- _ => rewrite Hb end;
      reflexivity.
  - unfold load_data in Hload. run_inv.
    all: cbn [trace heap next_loc] in *; rewrite <- ?app_assoc; cbn [app].
    all: eexists _, []; rewrite app_nil_r.
    all: split; [reflexivity |].
    all: split; [by each_event |]; split; [simpl; lia | by left].
Qed.

End Driver.

(** ** The theorems on the sample run *)

Abbreviation sample_fit train_df args :=
  (fit (sample_model "unet2") (sample_model "simple_unet")
     (sample_model "ternaus_v1") (sample_model "ternaus_v2")
     (sample_model "vgg19_v1") (sample_model "vgg19_v2")
     (sample_model "resnet50_v1") 99 9 48 sample_env
     train_df (VObject 7) (VObject 8) args).

Abbreviation sample_main_loop rounds args :=
  (main_loop (sample_model "unet2") (sample_model "simple_unet")
     (sample_model "ternaus_v1") (sample_model "ternaus_v2")
     (sample_model "vgg19_v1") (sample_model "vgg19_v2")
     (sample_model "resnet50_v1") 99 9 48 sample_env
     rounds (VFrame 5 100) (VObject 7) (VObject 8) args).

Abbreviation sample_state_after_fit :=
  (sample_fit (VFrame 5 100) sample_args sample_state).2.

Abbreviation sample_state_after_gc :=
  (extern sample_env gc_collect sample_state_after_fit).2.

Abbreviation sample_state_after_load_data :=
  (load_data sample_env sample_args sample_state).2.

Example sample_run_trains_twice :
  (sample_main_loop 5 sample_args sample_state).1 = Ret Broke /\
  sample_fit_generator_calls
    (trace (sample_main_loop 5 sample_args sample_state).2) = 2%nat.
Proof. vm_compute. done. Qed.

Lemma fit_passes_one_worker_one_queue_slot_witness :
  exists new,
    trace (sample_fit (VFrame 5 100) sample_args sample_state).2 = new /\
    Forall single_worker new /\
    exists keras_model aug_gen step_count callbacks history earlier,
      new = earlier ++
        [Event (fit_generator keras_model aug_gen step_count 99
                  (VObject 7, VObject 8) callbacks 1 1) (Ret history)].
Proof.
  destruct (fit_passes_one_worker_one_queue_slot
              (sample_model "unet2") (sample_model "simple_unet")
              (sample_model "ternaus_v1") (sample_model "ternaus_v2")
              (sample_model "vgg19_v1") (sample_model "vgg19_v2")
              (sample_model "resnet50_v1") 99 9 48 sample_env
              0%nat (VFrame 5 100) (VObject 7) (VObject 8)
              sample_args sample_state) as [_ Hfit].
  destruct (Hfit (sample_fit (VFrame 5 100) sample_args sample_state).1
              (sample_fit (VFrame 5 100) sample_args sample_state).2)
    as (new & Ht & HF & Hlast).
  { vm_compute. reflexivity. }
  destruct (Hlast _ ltac:(vm_compute; reflexivity))
    as (km & g & s & cbs & h & earlier & _ & ->).
  exists (earlier ++
            [Event (fit_generator km g s 99 (VObject 7, VObject 8) cbs 1 1)
               (Ret h)]).
  split; [exact Ht |]. split; [exact HF |]. eauto 10.
Defined.

Lemma step_count_is_min_witness :
  exists new,
    trace (sample_fit (VFrame 5 20) sample_args sample_state).2 = new /\
    Forall (steps_as_expected 9 48 (VFrame 5 20)) new /\
    exists keras_model aug_gen callbacks history earlier,
      new = earlier ++
        [Event (fit_generator keras_model aug_gen (Z.min 9 (20 `div` 48)) 99
                  (VObject 7, VObject 8) callbacks 1 1) (Ret history)].
Proof.
  destruct (step_count_is_min
              (sample_model "unet2") (sample_model "simple_unet")
              (sample_model "ternaus_v1") (sample_model "ternaus_v2")
              (sample_model "vgg19_v1") (sample_model "vgg19_v2")
              (sample_model "resnet50_v1") 99 9 48 sample_env
              (VFrame 5 20) (VObject 7) (VObject 8) sample_args sample_state
              (sample_fit (VFrame 5 20) sample_args sample_state).1
              (sample_fit (VFrame 5 20) sample_args sample_state).2)
    as (new & Ht & HF & Hcall).
  { vm_compute. reflexivity. }
  destruct (Hcall _ ltac:(vm_compute; reflexivity))
    as (h & rows & km & g & cbs & history & earlier & Hdf & _ & Hnew & _).
  injection Hdf as <- <-.
  exists new. split; [exact Ht |]. split; [exact HF |]. eauto 10.
Defined.

(** On the sample run with a frame of 20 rows and batches of 48, the
    step count handed over is 0. *)
Example sample_small_frame_gives_zero_steps :
  exists keras_model aug_gen callbacks history,
    last (trace (sample_fit (VFrame 5 20) sample_args sample_state).2) =
    Some (Event (fit_generator keras_model aug_gen 0 99 (VObject 7, VObject 8)
                   callbacks 1 1) (Ret history)).
Proof. vm_compute. eauto. Qed.

(** ** The command line *)

Lemma ap_actions :
  ap =
  [MkAction ["-h"; "--help"] None help None;
   MkAction ["-mn"; "--model_name"] (Some "model_name") (store type_str)
     (Some (SStr "simple_unet"));
   MkAction ["-lr"; "--learning_rate"] (Some "learning_rate")
     (store type_float) (Some (SFloat 0.001%float));
   MkAction ["-tt"; "--train_only_top"] (Some "train_only_top") store_true
     (Some (SBool false));
   MkAction ["-cl"; "--classify_mode"] (Some "classify_mode") store_true
     (Some (SBool false));
   MkAction ["-lw"; "--load_weights"] (Some "load_weights") store_true
     (Some (SBool false))].
Proof. reflexivity. Qed.

Lemma find_action_Some actions tok a :
  find_action actions tok = Some a -> a ∈ actions /\ tok ∈ option_strings a.
Proof.
  unfold find_action. intros H. apply find_some in H as [Hin Htok].
  split; [by apply list_elem_of_In | by apply bool_decide_eq_true in Htok].
Qed.

Lemma find_action_is_Some actions tok :
  is_Some (find_action actions tok) <->
  exists a, a ∈ actions /\ tok ∈ option_strings a.
Proof.
  split.
  - intros [a Ha]. exists a. by apply find_action_Some.
  - intros (a & Hin & Htok).
    destruct (find_action actions tok) as [a' |] eqn:Hfind; [eauto |].
    unfold find_action in Hfind.
    apply list_elem_of_In in Hin.
    apply (find_none _ _ Hfind a) in Hin.
    apply bool_decide_eq_false in Hin. done.
Qed.

Lemma recognised_tokens tok :
  is_Some (find_action ap tok) <->
  tok ∈ declared_flags \/ tok ∈ ["-h"; "--help"].
Proof.
  unfold declared_flags. split.
  - rewrite find_action_is_Some, ap_actions.
    intros (a & Hin & Htok).
    repeat (apply elem_of_cons in Hin as [-> | Hin];
            [simpl in Htok; set_solver |]).
    by apply elem_of_nil in Hin.
  - intros [H | H];
      repeat (apply elem_of_cons in H as [-> | H];
              [by (vm_compute; eauto) |]);
      by apply elem_of_nil in H.
Qed.

(** An invariant of the token loop is kept until the parse succeeds. *)
Lemma consume_invariant (I : gmap string scalar -> list string -> Prop)
    float_of_string actions :
  (forall ns tok rest a,
      I ns (tok :: rest) -> find_action actions tok = Some a ->
      action a = store_true -> I (setattr a (SBool true) ns) rest) ->
  (forall ns tok v rest a ty x,
      I ns (tok :: v :: rest) -> find_action actions tok = Some a ->
      action a = store ty -> starts_with_dash v = false ->
      get_value float_of_string ty v = Some x ->
      I (setattr a x ns) rest) ->
  (forall ns tok rest,
      I ns (tok :: rest) -> starts_with_dash tok = false -> I ns rest) ->
  forall argv ns extras ns',
    I ns argv ->
    consume float_of_string actions ns extras argv = Parsed ns' ->
    I ns' [].
Proof.
  intros Hflag Hstore Hpos argv.
  remember (length argv) as n eqn:Hn. revert argv Hn.
  induction n as [n IH] using lt_wf_ind.
  intros argv Hn ns extras ns' HI Hc.
  destruct argv as [| tok rest]; simpl in Hc.
  { destruct extras; [discriminate | by injection Hc as <-]. }
  destruct (starts_with_dash tok) eqn:Htok.
  - destruct (find_action actions tok) as [a |] eqn:Hfind; [| discriminate].
    destruct (action a) as [ty | |] eqn:Hact;
      [| | by destruct (forallb _ _)].
    + destruct rest as [| v rest']; [discriminate |].
      destruct (starts_with_dash v) eqn:Hv.
      { destruct (find_action actions v); discriminate. }
      destruct (get_value float_of_string ty v) as [x |] eqn:Hx;
        [| discriminate].
      eapply (IH (length rest')); [simpl in Hn; lia | done | | exact Hc].
      eapply Hstore; eauto.
    + eapply (IH (length rest)); [simpl in Hn; lia | done | | exact Hc].
      eapply Hflag; eauto.
  - eapply (IH (length rest)); [simpl in Hn; lia | done | | exact Hc].
    eapply Hpos; eauto.
Qed.

(** Once a positional token has been seen, no parse succeeds: the
    parser declares no positional argument. *)
Lemma consume_extras float_of_string actions argv ns ns' :
  consume float_of_string actions ns true argv <> Parsed ns'.
Proof.
  remember (length argv) as n eqn:Hn. revert argv Hn ns.
  induction n as [n IH] using lt_wf_ind.
  intros argv Hn ns Hc.
  destruct argv as [| tok rest]; simpl in Hc; [discriminate |].
  destruct (starts_with_dash tok) eqn:Htok.
  - destruct (find_action actions tok) as [a |] eqn:Hfind; [| discriminate].
    destruct (action a) as [ty | |] eqn:Hact;
      [| | by destruct (forallb _ _)].
    + destruct rest as [| v rest']; [discriminate |].
      destruct (starts_with_dash v) eqn:Hv.
      { destruct (find_action actions v); discriminate. }
      destruct (get_value float_of_string ty v) as [x |] eqn:Hx;
        [| discriminate].
      eapply (IH (length rest')); [simpl in Hn; lia | done | exact Hc].
    + eapply (IH (length rest)); [simpl in Hn; lia | done | exact Hc].
  - eapply (IH (length rest)); [simpl in Hn; lia | done | exact Hc].
Qed.

(** A relation between the dictionary before, the tokens and the
    dictionary after holds of a successful parse when it holds of no
    token and is carried backwards over a flag and over an option with
    its value. *)
Lemma consume_back
    (R : gmap string scalar -> list string -> gmap string scalar -> Prop)
    float_of_string actions :
  (forall ns, R ns [] ns) ->
  (forall ns tok rest a ns',
      starts_with_dash tok = true -> find_action actions tok = Some a ->
      action a = store_true ->
      R (setattr a (SBool true) ns) rest ns' -> R ns (tok :: rest) ns') ->
  (forall ns tok v rest a ty x ns',
      starts_with_dash tok = true -> find_action actions tok = Some a ->
      action a = store ty -> starts_with_dash v = false ->
      get_value float_of_string ty v = Some x ->
      R (setattr a x ns) rest ns' -> R ns (tok :: v :: rest) ns') ->
  forall argv ns ns',
    consume float_of_string actions ns false argv = Parsed ns' ->
    R ns argv ns'.
Proof.
  intros Hnil Hflag Hstore argv.
  remember (length argv) as n eqn:Hn. revert argv Hn.
  induction n as [n IH] using lt_wf_ind.
  intros argv Hn ns ns' Hc.
  destruct argv as [| tok rest]; simpl in Hc.
  { injection Hc as <-. apply Hnil. }
  destruct (starts_with_dash tok) eqn:Htok.
  - destruct (find_action actions tok) as [a |] eqn:Hfind; [| discriminate].
    destruct (action a) as [ty | |] eqn:Hact;
      [| | by destruct (forallb _ _)].
    + destruct rest as [| v rest']; [discriminate |].
      destruct (starts_with_dash v) eqn:Hv.
      { destruct (find_action actions v); discriminate. }
      destruct (get_value float_of_string ty v) as [x |] eqn:Hx;
        [| discriminate].
      eapply Hstore; eauto.
      eapply (IH (length rest')); [simpl in Hn; lia | done | exact Hc].
    + eapply Hflag; eauto.
      eapply (IH (length rest)); [simpl in Hn; lia | done | exact Hc].
  - by apply consume_extras in Hc.
Qed.

(** No command line that holds [-h] or [--help] gives a dictionary. *)
Lemma help_never_parses float_of_string flag argv ns :
  flag ∈ ["-h"; "--help"] -> flag ∈ argv ->
  parse_args float_of_string argv <> Parsed ns.
Proof.
  intros Hflag Hin Hparse. revert Hin. unfold parse_args in Hparse.
  revert Hparse.
  apply (consume_back (fun _ argv _ => flag ∉ argv)).
  - intros _. apply not_elem_of_nil.
  - intros ns0 tok rest a ns1 Htok Hfind Hact IH.
    apply not_elem_of_cons. split; [| done]. intros ->.
    repeat (apply elem_of_cons in Hflag as [-> | Hflag];
            [vm_compute in Hfind; injection Hfind as <-; discriminate Hact |]).
    by apply elem_of_nil in Hflag.
  - intros ns0 tok v rest a ty x ns1 Htok Hfind Hact Hv Hx IH.
    apply not_elem_of_cons. split.
    { intros ->.
      repeat (apply elem_of_cons in Hflag as [-> | Hflag];
              [vm_compute in Hfind; injection Hfind as <-;
               discriminate Hact |]).
      by apply elem_of_nil in Hflag. }
    apply not_elem_of_cons. split; [| done]. intros ->.
    repeat (apply elem_of_cons in Hflag as [-> | Hflag];
            [discriminate Hv |]).
    by apply elem_of_nil in Hflag.
Qed.

Lemma setattr_dom a v (ns : gmap string scalar) :
  a ∈ ap -> dom ns = namespace_keys -> dom (setattr a v ns) = namespace_keys.
Proof.
  rewrite ap_actions. intros Hin Hdom.
  repeat (apply elem_of_cons in Hin as [-> | Hin];
          [unfold setattr; simpl; try done;
           rewrite dom_insert_L, Hdom; unfold namespace_keys; set_solver |]).
  by apply elem_of_nil in Hin.
Qed.

(** Whatever the command line, a successful parse gives a dictionary with
    the five keys. *)
Lemma parse_args_keys float_of_string argv ns :
  parse_args float_of_string argv = Parsed ns -> dom ns = namespace_keys.
Proof.
  unfold parse_args.
  apply (consume_invariant (fun ns _ => dom ns = namespace_keys)).
  - intros ? tok ? a Hdom Hfind _.
    apply find_action_Some in Hfind as [Hin _]. by apply setattr_dom.
  - intros ? tok ? ? a ? ? Hdom Hfind _ _ _.
    apply find_action_Some in Hfind as [Hin _]. by apply setattr_dom.
  - done.
  - vm_compute. reflexivity.
Qed.

(** A boolean flag that occurs on a command line that parses is set. *)
Lemma parse_args_flag_present float_of_string argv ns flag key :
  (flag, key) ∈ boolean_flags -> flag ∈ argv ->
  parse_args float_of_string argv = Parsed ns ->
  ns !! key = Some (SBool true).
Proof.
  intros Hflag Hin Hparse.
  assert (Hfound : exists a0,
             find_action ap flag = Some a0 /\ action a0 = store_true /\
             dest a0 = Some key /\ starts_with_dash flag = true /\
             forall a, a ∈ ap -> dest a = Some key -> action a = store_true).
  { unfold boolean_flags in Hflag.
    repeat (apply elem_of_cons in Hflag as [[= -> ->] | Hflag];
            [eexists; split; [vm_compute; reflexivity |];
             repeat split;
             rewrite ap_actions; intros a Ha Hd;
             repeat (apply elem_of_cons in Ha as [-> | Ha];
                     [simpl in Hd; try done; discriminate |]);
             by apply elem_of_nil in Ha |]).
    by apply elem_of_nil in Hflag. }
  destruct Hfound as (a0 & Hfind0 & Hact0 & Hdest0 & Hdash & Honly).
  unfold parse_args in Hparse.
  assert (Hend : ns !! key = Some (SBool true) \/ flag ∈ ([] : list string)).
  { revert Hparse.
    apply (consume_invariant
             (fun ns rest => ns !! key = Some (SBool true) \/ flag ∈ rest));
      [| | | by right].
    - intros ns0 tok rest a [Hset | Hrest] Hfind Hact.
      + left. unfold setattr. destruct (dest a) as [d |] eqn:Hd; [| done].
        destruct (decide (d = key)) as [-> | Hne].
        * apply lookup_insert_eq.
        * by rewrite lookup_insert_ne.
      + apply elem_of_cons in Hrest as [<- | Hrest]; [| by right].
        left. rewrite Hfind0 in Hfind. injection Hfind as <-.
        unfold setattr. rewrite Hdest0. apply lookup_insert_eq.
    - intros ns0 tok v rest a ty x [Hset | Hrest] Hfind Hact Hv Hx.
      + left. unfold setattr. destruct (dest a) as [d |] eqn:Hd; [| done].
        destruct (decide (d = key)) as [-> | Hne].
        * apply find_action_Some in Hfind as [Ha _].
          rewrite (Honly a Ha Hd) in Hact. discriminate.
        * by rewrite lookup_insert_ne.
      + apply elem_of_cons in Hrest as [<- | Hrest].
        { rewrite Hfind0 in Hfind. injection Hfind as <-. congruence. }
        apply elem_of_cons in Hrest as [<- | Hrest]; [congruence |].
        by right.
    - intros ns0 tok rest [Hset | Hrest] Htok; [by left |].
      apply elem_of_cons in Hrest as [<- | Hrest]; [congruence | by right]. }
  destruct Hend as [H | H]; [done | by apply elem_of_nil in H].
Qed.

(** C3, as the script's parser would have it: only the five declared
    options are known.  [--help] refutes it. *)
Lemma help_flag_is_accepted : ~ accepts_exactly_five_flags.
Proof.
  intros H. destruct (H "--help") as [Hin _].
  assert (Hsome : is_Some (find_action ap "--help")) by (vm_compute; eauto).
  apply Hin in Hsome. unfold declared_flags in Hsome.
  repeat (apply elem_of_cons in Hsome as [[=] | Hsome]).
  by apply elem_of_nil in Hsome.
Qed.

(** C3, as the code has it.  The parser knows the spellings of the five
    declared options and, from [ArgumentParser()] itself, [-h] and
    [--help].  The five are [model_name] (a string, default
    ['simple_unet']), [learning_rate] (a float, default 0.001) and the
    three flags [train_only_top], [classify_mode], [load_weights], false
    by default and set to true by their presence.  Every successful parse
    gives a dictionary with exactly these five keys.  [-h] or [--help] as
    the first token, before tokens that are all option strings taken
    whole or do not begin with a dash, prints the usage and exits with
    status 0; and no command line that holds [-h] or [--help] gives a
    dictionary. *)
Theorem parser_has_five_options_and_help :
  (forall tok,
      is_Some (find_action ap tok) <->
      tok ∈ declared_flags \/ tok ∈ ["-h"; "--help"]) /\
  ap =
  [MkAction ["-h"; "--help"] None help None;
   MkAction ["-mn"; "--model_name"] (Some "model_name") (store type_str)
     (Some (SStr "simple_unet"));
   MkAction ["-lr"; "--learning_rate"] (Some "learning_rate")
     (store type_float) (Some (SFloat 0.001%float));
   MkAction ["-tt"; "--train_only_top"] (Some "train_only_top") store_true
     (Some (SBool false));
   MkAction ["-cl"; "--classify_mode"] (Some "classify_mode") store_true
     (Some (SBool false));
   MkAction ["-lw"; "--load_weights"] (Some "load_weights") store_true
     (Some (SBool false))] /\
  (forall float_of_string,
      parse_args float_of_string [] =
      Parsed (<["load_weights" := SBool false]>
               (<["classify_mode" := SBool false]>
                 (<["train_only_top" := SBool false]>
                   (<["learning_rate" := SFloat 0.001%float]>
                     (<["model_name" := SStr "simple_unet"]> ∅)))))) /\
  (forall float_of_string argv ns,
      parse_args float_of_string argv = Parsed ns ->
      dom ns = namespace_keys) /\
  (forall float_of_string argv ns flag key,
      (flag, key) ∈ boolean_flags -> flag ∈ argv ->
      parse_args float_of_string argv = Parsed ns ->
      ns !! key = Some (SBool true)) /\
  (forall float_of_string flag rest,
      flag ∈ ["-h"; "--help"] ->
      forallb (known_token ap) rest = true ->
      parse_args float_of_string (flag :: rest) = Exit 0) /\
  (forall float_of_string flag argv ns,
      flag ∈ ["-h"; "--help"] -> flag ∈ argv ->
      parse_args float_of_string argv <> Parsed ns).
Proof.
  split; [exact recognised_tokens |].
  split; [exact ap_actions |].
  split; [reflexivity |].
  split; [exact parse_args_keys |].
  split; [exact parse_args_flag_present |].
  split; [| exact help_never_parses].
  intros f flag rest Hflag Hknown.
  repeat (apply elem_of_cons in Hflag as [-> | Hflag];
          [transitivity (if forallb (known_token ap) rest
                         then Exit 0 else Unmodelled);
           [reflexivity | by rewrite Hknown] |]).
  by apply elem_of_nil in Hflag.
Qed.

Lemma parser_has_five_options_and_help_witness :
  dom (<["load_weights" := SBool true]>
        (<["classify_mode" := SBool true]> (initial_namespace ap)))
    = namespace_keys /\
  (<["load_weights" := SBool true]>
     (<["classify_mode" := SBool true]> (initial_namespace ap)))
    !! "load_weights" = Some (SBool true) /\
  parse_args (fun _ => None) ["--help"; "-mn"; "data"] = Exit 0 /\
  parse_args (fun _ => None) ["-tt"; "-h"; "--l"] <> Parsed ∅.
Proof.
  destruct parser_has_five_options_and_help
    as (_ & _ & _ & Hkeys & Hflag & Hhelp & Hnever).
  split; [| split; [| split]].
  - apply (Hkeys (fun _ => None) ["-cl"; "--load_weights"]).
    vm_compute. reflexivity.
  - apply (Hflag (fun _ => None) ["-cl"; "--load_weights"] _
             "--load_weights" "load_weights").
    + apply list_elem_of_In. simpl. auto 10.
    + apply list_elem_of_In. simpl. auto.
    + vm_compute. reflexivity.
  - apply (Hhelp (fun _ => None) "--help" ["-mn"; "data"]).
    + apply list_elem_of_In. simpl. auto.
    + vm_compute. reflexivity.
  - apply (Hnever (fun _ => None) "-h" ["-tt"; "-h"; "--l"] ∅).
    + apply list_elem_of_In. simpl. auto.
    + apply list_elem_of_In. simpl. auto.
Defined.

(** *** What a parse puts in the dictionary *)






(** The tokens are read from left to right: when a command line parses,
    a longer one that starts with it is parsed as what follows the
    shorter one is, from the dictionary the shorter one gave; and so a
    token after it that does not begin with a dash, a positional
    argument, makes the parse fail whatever comes next. *)
Theorem parse_goes_on_from_where_a_shorter_parse_ended
    float_of_string before ns after :
  parse_args float_of_string before = Parsed ns ->
  parse_args float_of_string (before ++ after) =
    consume float_of_string ap ns false after /\
  forall tok rest ns',
    after = tok :: rest -> starts_with_dash tok = false ->
    parse_args float_of_string (before ++ after) <> Parsed ns'.
Proof.
  unfold parse_args. intros Hparse.
  assert (Happ :
    consume float_of_string ap (initial_namespace ap) false (before ++ after)
    = consume float_of_string ap ns false after).
  { revert Hparse.
    apply (consume_back
             (fun ns0 argv ns1 =>
                consume float_of_string ap ns0 false (argv ++ after) =
                consume float_of_string ap ns1 false after)).
    - done.
    - intros ns0 tok rest a ns1 Htok Hfind Hact IH.
      rewrite <- app_comm_cons. cbn [consume].
      by rewrite Htok, Hfind, Hact.
    - intros ns0 tok v rest a ty x ns1 Htok Hfind Hact Hv Hx IH.
      rewrite <- !app_comm_cons. cbn [consume].
      by rewrite Htok, Hfind, Hact, Hv, Hx. }
  split; [exact Happ |].
  intros tok rest ns' -> Htok. rewrite Happ. cbn [consume]. rewrite Htok.
  apply consume_extras.
Qed.

(** ** The handler, the loop and the data on the sample run *)



Lemma loop_exits_iff_val_loss_below_threshold_witness :
  (sample_main_loop 4 sample_args sample_state
     = (Ret Broke, sample_state_after_gc)
   <-> PrimFloat.ltb (foldl np_minimum 0.5%float [0.3%float]) 0.2%float
       = true) /\
  (PrimFloat.ltb (foldl np_minimum 0.5%float [0.3%float]) 0.2%float = false ->
   sample_main_loop 4 sample_args sample_state =
   sample_main_loop 3 sample_args sample_state_after_gc /\
   forall rounds', 3%nat = S rounds' ->
     trace (sample_fit (VFrame 5 100) sample_args sample_state_after_gc).2
       `prefix_of`
     trace (sample_main_loop 3 sample_args sample_state_after_gc).2) /\
  (PrimFloat.ltb (foldl np_minimum 0.5%float [0.3%float]) 0.2%float = true <->
   Forall (fun v => PrimFloat.is_nan v = false) [0.5%float; 0.3%float] /\
   Exists (fun v => PrimFloat.ltb v 0.2%float = true)
     [0.5%float; 0.3%float]).
Proof.
  apply (loop_exits_iff_val_loss_below_threshold
           (sample_model "unet2") (sample_model "simple_unet")
           (sample_model "ternaus_v1") (sample_model "ternaus_v2")
           (sample_model "vgg19_v1") (sample_model "vgg19_v2")
           (sample_model "resnet50_v1") 99 9 48 sample_env
           3%nat (VFrame 5 100) (VObject 7) (VObject 8) sample_args
           sample_state sample_history sample_state_after_fit
           (VScalar (SInt 0)) sample_state_after_gc).
  - vm_compute. reflexivity.
  - vm_compute. reflexivity.
  - vm_compute. reflexivity.
Defined.

Lemma load_data_branches_on_classify_mode_witness :
  load_data sample_env sample_args sample_state =
    (Ret (VFrame 5 100, VObject 7, VObject 8), sample_state_after_load_data)
  <->
  exists df unique_img_ids balanced_dataset valid_df,
    let evs := load_data_events (SBool false) df unique_img_ids
                 balanced_dataset (VFrame 5 100) valid_df (VObject 7)
                 (VObject 8) in
    answered sample_env (trace sample_state) evs /\
    sample_state_after_load_data =
      State (trace sample_state ++ evs) (heap sample_state)
        (next_loc sample_state).
Proof.
  apply (load_data_branches_on_classify_mode sample_env sample_args
           sample_state (SBool false)).
  vm_compute. reflexivity.
Defined.

(** Without [--classify_mode] the sample run drops the empty images. *)
Example sample_load_data_calls :
  map ev_call (trace sample_state_after_load_data) =
  [load_dataset; get_unique_img_ids (VFrame 1 1000);
   drop_empty_images (VObject 2);
   get_train_val_datasets (VFrame 1 1000) (VObject 4);
   split_validation_dataset (VFrame 6 20) (SBool false)].
Proof. vm_compute. reflexivity. Qed.

Lemma unknown_model_name_raises_witness :
  fit (sample_model "unet2") (sample_model "simple_unet")
    (sample_model "ternaus_v1") (sample_model "ternaus_v2")
    (sample_model "vgg19_v1") (sample_model "vgg19_v2")
    (sample_model "resnet50_v1") 99 9 48 sample_env
    (VFrame 5 100) (VObject 7) (VObject 8) sample_args
    sample_state_unknown_model =
  (Raise (Exn AttributeError "get_model"), sample_state_unknown_model).
Proof.
  apply (unknown_model_name_raises
           (sample_model "unet2") (sample_model "simple_unet")
           (sample_model "ternaus_v1") (sample_model "ternaus_v2")
           (sample_model "vgg19_v1") (sample_model "vgg19_v2")
           (sample_model "resnet50_v1") 99 9 48 sample_env
           (VFrame 5 100) (VObject 7) (VObject 8) sample_args
           sample_state_unknown_model (SStr "no_such_model") (SBool false)).
  - vm_compute. reflexivity.
  - vm_compute. reflexivity.
  - vm_compute. reflexivity.
Defined.

(** ** The step count, the handler and the command line on samples *)

Lemma an_epoch_stays_within_the_frame_witness :
  exists new,
    trace (sample_fit (VFrame 5 100) sample_args sample_state).2 =
      trace sample_state ++ new /\
    Forall (steps_within_frame 9 48 (VFrame 5 100)) new.
Proof.
  apply (an_epoch_stays_within_the_frame
           (sample_model "unet2") (sample_model "simple_unet")
           (sample_model "ternaus_v1") (sample_model "ternaus_v2")
           (sample_model "vgg19_v1") (sample_model "vgg19_v2")
           (sample_model "resnet50_v1") 99 9 48 sample_env
           (VFrame 5 100) (VObject 7) (VObject 8) sample_args sample_state).
  - lia.
  - lia.
  - intros h rows [= <- <-]. lia.
Defined.

(** With batches of 48 and a frame of 100 rows the sample run trains for
    2 steps an epoch. *)
Example sample_frame_gives_two_steps :
  exists keras_model aug_gen callbacks history,
    last (trace (sample_fit (VFrame 5 100) sample_args sample_state).2) =
    Some (Event (fit_generator keras_model aug_gen 2 99 (VObject 7, VObject 8)
                   callbacks 1 1) (Ret history)).
Proof. vm_compute. eauto. Qed.

Lemma failed_print_is_taken_for_missing_weights_witness :
  load_weight_if_possible sample_env_closed_stdout (sample_model "unet2")
    (VObject 9) sample_state =
  (Raise (Exn BrokenPipeError "Broken pipe"),
   State
     [Event (load_weights (VObject 9) "weights/unet2") (Ret VNone);
      Event (print (VScalar (SStr "Weights loaded!")))
        (Raise (Exn BrokenPipeError "Broken pipe"));
      Event (print (VScalar (SStr
         "No file with weights available! Starting from scratch...")))
        (Raise (Exn BrokenPipeError "Broken pipe"))]
     (heap sample_state) (next_loc sample_state)).
Proof.
  rewrite (failed_print_is_taken_for_missing_weights
             sample_env_closed_stdout (sample_model "unet2") (VObject 9)
             sample_state VNone (Exn BrokenPipeError "Broken pipe"))
    by reflexivity.
  reflexivity.
Defined.


(** On the sample command line the second model name is the one kept. *)
Example sample_argv_keeps_second_model_name :
  value_after ["-mn"; "--model_name"] sample_argv = Some "vgg19" /\
  value_after ["-lr"; "--learning_rate"] sample_argv = Some "0.01".
Proof. vm_compute. done. Qed.

Lemma parse_goes_on_from_where_a_shorter_parse_ended_witness :
  parse_args sample_float_of_string (["-cl"] ++ ["data"; "-lw"]) =
    consume sample_float_of_string ap
      (<["classify_mode" := SBool true]> (initial_namespace ap)) false
      ["data"; "-lw"] /\
  forall tok rest ns',
    ["data"; "-lw"] = tok :: rest -> starts_with_dash tok = false ->
    parse_args sample_float_of_string (["-cl"] ++ ["data"; "-lw"])
      <> Parsed ns'.
Proof.
  apply (parse_goes_on_from_where_a_shorter_parse_ended
           sample_float_of_string ["-cl"]
           (<["classify_mode" := SBool true]> (initial_namespace ap))
           ["data"; "-lw"]).
  vm_compute. reflexivity.
Defined.
